(** * News collector (backend/main.py, backend/keyword_maker.py)

    A shallow embedding of the feed-collection pipeline and of the keyword
    extractor, followed by the properties of the specification that concern
    them.

    Python values are modelled as follows.
    - [str] is a list of Unicode code points ([pystr]); literals of the
      source are written as UTF-8 Rocq strings and decoded by [u].
    - an exception is a value of [outcome]; [try]/[except] is [try_except].
    - what the program gets from outside (feedparser, dateutil, the clock,
      the database module, the chat-completion service, [str.lower]) is a
      Section variable: every theorem holds for every behaviour of it.
    - backend/keyword_maker.py does not parse (line 33): the import of the
      module is modelled with the [SyntaxError] it raises, and the bodies
      of its functions apart, over any value of [STOP_WORDS].
    - the [stats] dictionary is a [gmap] from key to value; the dictionary
      that deduplicates articles keeps its insertion order and is an
      association list. *)

From Stdlib Require Import ZArith NArith Lia Ascii String.
From stdpp Require Import base option list strings gmap.

Set Default Proof Using "Type".

(** ** Python primitives *)
Module Py.

Definition pystr := list N.

(** Decoding of a UTF-8 byte sequence into code points. *)
Fixpoint utf8_decode (bs : list N) : pystr :=
  match bs with
  | [] => []
  | b0 :: r0 =>
      if (b0 <? 128)%N then b0 :: utf8_decode r0
      else if (b0 <? 224)%N then
        match r0 with
        | b1 :: r1 => ((b0 mod 32) * 64 + b1 mod 64)%N :: utf8_decode r1
        | _ => []
        end
      else if (b0 <? 240)%N then
        match r0 with
        | b1 :: b2 :: r2 =>
            ((b0 mod 16) * 4096 + (b1 mod 64) * 64 + b2 mod 64)%N
              :: utf8_decode r2
        | _ => []
        end
      else
        match r0 with
        | b1 :: b2 :: b3 :: r3 =>
            ((b0 mod 8) * 262144 + (b1 mod 64) * 4096
             + (b2 mod 64) * 64 + b3 mod 64)%N :: utf8_decode r3
        | _ => []
        end
  end.

(** A literal of the source. *)
Definition u (s : string) : pystr :=
  utf8_decode (map N_of_ascii (list_ascii_of_string s)).

(** [len(s)] *)
Definition len (s : pystr) : nat := length s.

(** Truth value of a [str]: the empty string is false. *)
Definition truthy (s : pystr) : bool :=
  match s with [] => false | _ => true end.

(** [c.isspace()] for one code point. *)
Definition isspace (c : N) : bool :=
  ((9 <=? c) && (c <=? 13) || (28 <=? c) && (c <=? 32)
   || (c =? 133) || (c =? 160) || (c =? 5760)
   || (8192 <=? c) && (c <=? 8202)
   || (c =? 8232) || (c =? 8233) || (c =? 8239) || (c =? 8287)
   || (c =? 12288))%N.

(** [s.lstrip()], [s.rstrip()], [s.strip()] *)
Fixpoint lstrip (s : pystr) : pystr :=
  match s with
  | c :: r => if isspace c then lstrip r else s
  | [] => []
  end.

Definition rstrip (s : pystr) : pystr := rev (lstrip (rev s)).

Definition strip (s : pystr) : pystr := rstrip (lstrip s).

(** [s.split(sep)] for a separator of one code point. *)
Fixpoint split (sep : N) (s : pystr) : list pystr :=
  match s with
  | [] => [[]]
  | c :: r =>
      if (c =? sep)%N then [] :: split sep r
      else match split sep r with
           | w :: ws => (c :: w) :: ws
           | [] => [[c]]
           end
  end.

(** [s.startswith(p)] *)
Fixpoint startswith (p s : pystr) : bool :=
  match p, s with
  | [], _ => true
  | a :: p', b :: s' => (a =? b)%N && startswith p' s'
  | _ :: _, [] => false
  end.

(** [p in s] for strings. *)
Fixpoint contains (p s : pystr) : bool :=
  startswith p s || match s with
                    | [] => false
                    | _ :: s' => contains p s'
                    end.

(** [x in l] for a list of strings. *)
Definition mem (x : pystr) (l : list pystr) : bool := bool_decide (x ∈ l).

(** [s.lower()] on the code points whose lower case is in ASCII. On a
    string whose cased characters are all ASCII letters (every literal
    of [keyword_maker] is one) this is [str.lower]. *)
Definition ascii_lower (s : pystr) : pystr :=
  map (fun c => if (65 <=? c) && (c <=? 90) then c + 32 else c)%N s.

(** [l[:n]] for an integer [n]: a negative [n] counts from the end. *)
Definition slice_to {A} (n : Z) (l : list A) : list A :=
  if (n <? 0)%Z then take (Z.to_nat (Z.of_nat (length l) + n)) l
  else take (Z.to_nat n) l.

(** ["%0wd" % n] for [n] below [10^w]: [w] decimal digits, most
    significant first. *)
Fixpoint digits (w : nat) (n : N) : pystr :=
  match w with
  | O => []
  | S w' => (48 + n / 10 ^ N.of_nat w')%N :: digits w' (n mod 10 ^ N.of_nat w')
  end.

(** An exception, with its message. *)
Inductive exn := Exception (msg : string).

(** The result of running a piece of code that may raise. *)
Inductive outcome (A : Type) :=
| Ret (a : A)
| Raise (e : exn).
Arguments Ret {A} a.
Arguments Raise {A} e.

Definition bind {A B} (m : outcome A) (k : A -> outcome B) : outcome B :=
  match m with
  | Ret a => k a
  | Raise e => Raise e
  end.

(** [try: body  except Exception as e: handler e] *)
Definition try_except {A} (body : outcome A) (handler : exn -> outcome A)
  : outcome A :=
  match body with
  | Ret a => Ret a
  | Raise e => handler e
  end.

End Py.

Import Py.

#[global] Instance outcome_ret : MRet outcome := @Ret.
#[global] Instance outcome_bind : MBind outcome := fun A B k m => bind m k.

(** ** backend/keyword_maker.py *)
Module keyword_maker.

(** *** The module as a text

    The list literal of lines 11-36 is not a list. On line 33 the entry
    [won't] opens with a double quote, and the next double quote of the
    line is the one in front of [wouldn't]; the quote inside [wouldn't]
    then opens a string that the line does not close. So the file does
    not parse, and importing it raises [SyntaxError] before any line of
    it has run: [STOP_WORDS] gets no value and no function is defined. *)

Fixpoint join (sep : pystr) (pieces : list pystr) : pystr :=
  match pieces with
  | [] => []
  | [piece] => piece
  | piece :: rest => piece ++ sep ++ join sep rest
  end.

(** Line 33, character by character: the pieces of the line, with a
    double quote (code point 34) between each piece and the next. *)
Definition line_33 : pystr := Eval vm_compute in
  join [34%N] (map u [
    "    'where', "; "where's"; ", 'which', 'while', 'who', "; "who's";
    ", 'whom', 'why', "; "why's"; ", 'with', "; "won't', 'would', ";
    "wouldn't"; ","
  ]%string).

(** Where the tokenizer is in a line: in code, in a string literal opened
    by [quote], or behind a backslash in such a literal. *)
Inductive lexer_state :=
| InCode
| InString (quote : N)
| AfterBackslash (quote : N).

(** The string literals of one line: a quote (39 or 34) opens a literal,
    the same quote closes it, a backslash takes the next character with
    it, and [#] in code starts a comment up to the end of the line. *)
Fixpoint scan (st : lexer_state) (line : pystr) : lexer_state :=
  match line with
  | [] => st
  | c :: rest =>
      match st with
      | InCode =>
          if (c =? 39)%N || (c =? 34)%N then scan (InString c) rest
          else if (c =? 35)%N then InCode
          else scan InCode rest
      | InString quote =>
          if (c =? 92)%N then scan (AfterBackslash quote) rest
          else if (c =? quote)%N then scan InCode rest
          else scan (InString quote) rest
      | AfterBackslash quote => scan (InString quote) rest
      end
  end.

(** [import keyword_maker]: a line that ends inside a literal is a
    [SyntaxError] for the whole file. The other lines are well formed. *)
Definition import_module : outcome unit :=
  match scan InCode line_33 with
  | InCode => Ret tt
  | _ => Raise (Exception "SyntaxError")
  end.

(** What a caller gets from a function of the module: the import first,
    then the call. *)
Definition imported {A} (call : outcome A) : outcome A :=
  _ ← import_module; call.

(** *** The bodies of the functions, lines 41-105 *)

(** Lines 85-92. *)
Definition tech_terms : list pystr := Eval vm_compute in map u [
  "AI"; "인공지능"; "머신러닝"; "딥러닝"; "반도체"; "5G"; "6G";
  "IoT"; "클라우드"; "빅데이터"; "블록체인"; "메타버스"; "VR"; "AR";
  "로봇"; "자동화"; "스마트팩토리"; "디지털전환"; "DX"; "핀테크";
  "전기차"; "자율주행"; "배터리"; "태양광"; "풍력"; "수소";
  "양자컴퓨팅"; "사이버보안"; "해킹"; "랜섬웨어"; "개인정보보호";
  "스타트업"; "유니콘"; "벤처캐피탈"; "IPO"; "M&A"
]%string.

(** The f-string of lines 49-54 around [text[:1000]]. *)
Definition prompt_head : pystr := Eval vm_compute in
  [10%N]
  ++ u "        다음 텍스트에서 핵심 키워드를 추출해주세요. IT/기술 관련 키워드를 우선적으로 선택하고, "
  ++ [10%N]
  ++ u "        최대 10개까지 중요한 순서대로 나열해주세요. 각 키워드는 쉼표로 구분하여 반환해주세요."
  ++ [10%N] ++ u "        " ++ [10%N]
  ++ u "        텍스트: ".

Definition prompt_tail : pystr := Eval vm_compute in [10%N] ++ u "        ".

Section with_environment.

(** [str.lower]. *)
Variable lower : pystr -> pystr.

(** The value of the global [STOP_WORDS] that the bodies read: what
    line 38 would bind in a module that had loaded. No value is taken
    for it here. *)
Variable STOP_WORDS : list pystr.

(** [os.getenv("OPENAI_API_KEY")], read when the module is loaded. *)
Variable OPENAI_API_KEY : option pystr.

(** Lines 47-66 up to [.content], for the one call that a run of the
    body makes: the client built with the key, the request (model
    gpt-3.5-turbo, the fixed system message, the prompt as user message,
    max_tokens 100, temperature 0.3) and the reading of
    [response.choices[0].message.content]. Any of them may raise. *)
Variable chat_completion : pystr -> pystr -> outcome pystr.

(** [k.lower() not in STOP_WORDS and len(k) > 1] (lines 72 and 102). *)
Definition keep_keyword (k : pystr) : bool :=
  negb (mem (lower k) STOP_WORDS) && (1 <? len k).

(** Lines 82-105. *)
Definition extract_simple_keywords (text : pystr) : list pystr :=
  let text_lower := lower text in
  let keywords :=
    filter (fun term => contains (lower term) text_lower = true)
           tech_terms in
  let filtered_keywords :=
    filter (fun k => keep_keyword k = true) keywords in
  take 8 filtered_keywords.

(** Lines 47-75: the body of the [try]. *)
Definition remote_keywords (key text : pystr) : outcome (list pystr) :=
  let prompt := prompt_head ++ take 1000 text ++ prompt_tail in
  content ← chat_completion key prompt;
  let keywords_text := strip content in
  let raw_keywords :=
    omap (fun k => if truthy (strip k) then Some (strip k) else None)
         (split 44 keywords_text) in
  let filtered_keywords :=
    filter (fun k => keep_keyword k = true) raw_keywords in
  mret (take 8 filtered_keywords).

(** Lines 41-80. *)
Definition extract_keywords (text : pystr) : outcome (list pystr) :=
  match OPENAI_API_KEY with
  | Some key =>
      if negb (truthy text) || negb (truthy key) then mret []
      else try_except (remote_keywords key text)
                      (fun e => mret (extract_simple_keywords text))
  | None => mret []
  end.

End with_environment.

End keyword_maker.


(** ** The [datetime] class, as far as [isoformat] needs it *)
Module datetime.

Record fields := Fields {
  year : N; month : N; day : N;
  hour : N; minute : N; second : N; microsecond : N
}.

Definition is_leap (y : N) : bool :=
  ((y mod 4 =? 0) && negb (y mod 100 =? 0) || (y mod 400 =? 0))%N.

Definition days_in_month (y m : N) : N :=
  (if m =? 2 then (if is_leap y then 29 else 28)
   else if (m =? 4) || (m =? 6) || (m =? 9) || (m =? 11) then 30
   else 31)%N.

(** The checks of the constructor: a [datetime] outside them does not
    exist ([ValueError]). *)
Definition valid_fields (f : fields) : bool :=
  ((1 <=? year f) && (year f <=? 9999)
   && (1 <=? month f) && (month f <=? 12)
   && (1 <=? day f) && (day f <=? days_in_month (year f) (month f))
   && (hour f <? 24) && (minute f <? 60) && (second f <? 60)
   && (microsecond f <? 1000000))%N.

(** [utcoffset()] in minutes; [None] for a naive object. The offsets that
    [dateutil.parser] builds come from [+HH:MM] suffixes and zone names
    and are whole minutes, strictly within a day. *)
Definition valid_offset (o : option Z) : bool :=
  match o with
  | None => true
  | Some m => ((-1440 <? m) && (m <? 1440))%Z
  end.

Record datetime := Datetime {
  local : fields;
  utcoffset : option Z;
  local_ok : valid_fields local = true;
  offset_ok : valid_offset utcoffset = true
}.

(** A naive object, as [datetime.now()] returns. *)
Record naive := Naive {
  naive_fields : fields;
  naive_ok : valid_fields naive_fields = true
}.

Definition of_naive (n : naive) : datetime :=
  Datetime (naive_fields n) None (naive_ok n) eq_refl.

(** [_format_offset]: [+HH:MM] or [-HH:MM]. *)
Definition format_offset (o : option Z) : pystr :=
  match o with
  | None => []
  | Some m =>
      let a := Z.to_N (Z.abs m) in
      (if (m <? 0)%Z then 45%N else 43%N)
        :: digits 2 (a / 60) ++ [58%N] ++ digits 2 (a mod 60)
  end.

Definition format_fields (f : fields) : pystr :=
  digits 4 (year f) ++ [45%N] ++ digits 2 (month f) ++ [45%N]
  ++ digits 2 (day f) ++ [84%N]
  ++ digits 2 (hour f) ++ [58%N] ++ digits 2 (minute f) ++ [58%N]
  ++ digits 2 (second f)
  ++ (if (microsecond f =? 0)%N then []
      else 46%N :: digits 6 (microsecond f)).

(** [d.isoformat()]: [YYYY-MM-DDTHH:MM:SS], then [.ffffff] when the
    microsecond is not 0, then the offset of an aware object. *)
Definition isoformat (d : datetime) : pystr :=
  format_fields (local d) ++ format_offset (utcoffset d).

(** *** Recognising an ISO-8601 timestamp *)

Definition is_digit (c : N) : bool := ((48 <=? c) && (c <=? 57))%N.

(** Reads [w] decimal digits. *)
Fixpoint read_digits (w : nat) (acc : N) (s : pystr) : option (N * pystr) :=
  match w with
  | O => Some (acc, s)
  | S w' =>
      match s with
      | c :: r =>
          if is_digit c then read_digits w' (acc * 10 + (c - 48))%N r
          else None
      | [] => None
      end
  end.

Definition expect (c : N) (s : pystr) : option pystr :=
  match s with
  | c' :: r => if (c' =? c)%N then Some r else None
  | [] => None
  end.

(** The optional [.ffffff]. *)
Definition read_fraction (s : pystr) : option (N * pystr) :=
  match s with
  | 46%N :: r => read_digits 6 0 r
  | _ => Some (0%N, s)
  end.

(** The optional [+HH:MM] or [-HH:MM], up to the end of the string. *)
Definition read_offset (s : pystr) : option (option Z) :=
  match s with
  | [] => Some None
  | c :: r =>
      if (c =? 43)%N || (c =? 45)%N then
        '(hh, r) ← read_digits 2 0 r;
        r ← expect 58 r;
        '(mm, r) ← read_digits 2 0 r;
        match r with
        | [] =>
            if (hh <? 24)%N && (mm <? 60)%N then
              let m := Z.of_N (hh * 60 + mm) in
              Some (Some (if (c =? 45)%N then (- m)%Z else m))
            else None
        | _ => None
        end
      else None
  end.

(** The calendar date and time of day in the extended format, with [T]
    between them, and the offset if there is one. *)
Definition parse_iso8601 (s : pystr) : option (fields * option Z) :=
  '(y, s) ← read_digits 4 0 s;
  s ← expect 45 s;
  '(mo, s) ← read_digits 2 0 s;
  s ← expect 45 s;
  '(d, s) ← read_digits 2 0 s;
  s ← expect 84 s;
  '(h, s) ← read_digits 2 0 s;
  s ← expect 58 s;
  '(mi, s) ← read_digits 2 0 s;
  s ← expect 58 s;
  '(se, s) ← read_digits 2 0 s;
  '(us, s) ← read_fraction s;
  o ← read_offset s;
  Some (Fields y mo d h mi se us, o).

(** A string is a valid ISO-8601 timestamp when it has that shape and
    names an existing date, time of day and offset. *)
Definition is_iso8601 (s : pystr) : bool :=
  match parse_iso8601 s with
  | Some (f, o) => valid_fields f && valid_offset o
  | None => false
  end.

(** The constructor with its checks; [None] stands for [ValueError]. *)
Definition make_datetime (f : fields) (o : option Z) : option datetime :=
  match valid_fields f as b return valid_fields f = b -> option datetime with
  | true => fun Hf =>
      match valid_offset o as b
            return valid_offset o = b -> option datetime with
      | true => fun Ho => Some (Datetime f o Hf Ho)
      | false => fun _ => None
      end eq_refl
  | false => fun _ => None
  end eq_refl.

(** The object that a valid ISO-8601 timestamp denotes. *)
Definition fromisoformat (s : pystr) : option datetime :=
  '(f, o) ← parse_iso8601 s; make_datetime f o.

End datetime.

(** ** backend/main.py *)
Module main.
Import datetime.

(** An element of [FEEDS]: a dictionary read with [.get]. *)
Record feed_config := FeedConfig {
  feed_url : option pystr;
  feed_source : option pystr
}.

(** An entry of a parsed feed, read with [getattr(entry, name, default)]:
    an attribute may be missing. *)
Record entry := Entry {
  entry_title : option pystr;
  entry_link : option pystr;
  entry_published : option pystr;
  entry_summary : option pystr
}.

(** What [feedparser.parse] returns: its truth value and [.entries]. *)
Record feed := Feed {
  feed_bool : bool;
  entries : list entry
}.

(** The dictionary of line 57. *)
Record article := Article {
  title : pystr;
  link : pystr;
  published : pystr;
  source : pystr;
  summary : pystr;
  keywords : pystr
}.

#[global] Instance article_eq_dec : EqDecision article.
Proof. solve_decision. Defined.

(** A value of the [stats] dictionary. *)
Inductive pyval :=
| VInt (n : Z)
| VList (l : list pystr).

(** [stats[key] += 1] *)
Definition incr (key : string) (stats : gmap string pyval) : gmap string pyval :=
  alter (fun v => match v with VInt n => VInt (n + 1) | _ => v end) key stats.

(** [stats.get(key, default)] for a counter. *)
Definition get_int (key : string) (default : Z) (stats : gmap string pyval) : Z :=
  match stats !! key with
  | Some (VInt n) => n
  | _ => default
  end.

(** Lines 86-94. *)
Definition FEEDS : list feed_config := Eval vm_compute in
  map (fun p => FeedConfig (Some (u p.1)) (Some (u p.2))) [
    ("https://it.donga.com/feeds/rss/", "IT동아");
    ("https://rss.etnews.com/Section902.xml", "전자신문_속보");
    ("https://www.bloter.net/feed", "Bloter");
    ("https://byline.network/feed/", "Byline Network");
    ("https://platum.kr/feed", "Platum");
    ("https://techcrunch.com/feed/", "TechCrunch");
    ("https://www.theverge.com/rss/index.xml", "The Verge")
  ]%string.

(** Line 95: [FEEDS[:max_feeds] if max_feeds else FEEDS]. An [int] is
    true when it is not 0; [None] is false. *)
Definition feeds_to_process (FEEDS : list feed_config) (max_feeds : option Z)
  : list feed_config :=
  match max_feeds with
  | Some n => if (n =? 0)%Z then FEEDS else slice_to n FEEDS
  | None => FEEDS
  end.

(** The dictionary comprehension of line 103, in insertion order: a key
    already present keeps its place and takes the new value. *)
Fixpoint dict_set (k : pystr) (v : article) (d : list (pystr * article))
  : list (pystr * article) :=
  match d with
  | [] => [(k, v)]
  | (k', v') :: d' =>
      if decide (k = k') then (k, v) :: d' else (k', v') :: dict_set k v d'
  end.

Definition dict_of (all_articles : list article) : list (pystr * article) :=
  foldl (fun d a => dict_set (link a) a d) [] all_articles.

(** [list({article['link']: article for article in all_articles}.values())] *)
Definition unique_articles (all_articles : list article) : list article :=
  (dict_of all_articles).*2.

(** [as_completed(futures)]: the futures in the order [order] in which
    they finish, given by their positions in [futures]. *)
Definition as_completed {A} (order : list nat) (futures : list A) : list A :=
  omap (fun i => futures !! i) order.

Section collector.

(** [feedparser.parse(feed_url)] *)
Variable feedparser_parse : option pystr -> outcome feed.

(** [dateutil.parser.parse(published_str)], with the import of line 51. *)
Variable dateutil_parse : pystr -> outcome datetime.

(** The database: its state and [db.insert_article]. *)
Variable DB : Type.
Variable insert_article : DB -> article -> outcome bool * DB.

(** The values of [time.time()] and their difference. *)
Variable float : Type.
Variable fsub : float -> float -> float.

(** Lines 44-57: one turn of the loop. [now] gives the successive
    values of [datetime.now()] in this call and [t] counts the ones
    already read. [None] is [continue]. *)
Definition process_entry (now : nat -> naive) (src : pystr) (t : nat)
  (e : entry) : option article * nat :=
  let title := strip (default (u "No Title") (entry_title e)) in
  let link := strip (default [] (entry_link e)) in
  if negb (truthy title) || negb (truthy link) then (None, t)
  else
    let published_str :=
      default (isoformat (of_naive (now t))) (entry_published e) in
    let '(published, t') :=
      match dateutil_parse published_str with
      | Ret d => (isoformat d, S t)
      | Raise _ => (isoformat (of_naive (now (S t))), S (S t))
      end in
    let summary := default [] (entry_summary e) in
    (Some (Article title link published src summary (u "[]")), t').

(** Line 43 on: the loop over the entries kept. *)
Fixpoint process_entries (now : nat -> naive) (src : pystr) (t : nat)
  (es : list entry) : list article :=
  match es with
  | [] => []
  | e :: es' =>
      match process_entry now src t e with
      | (Some a, t') => a :: process_entries now src t' es'
      | (None, t') => process_entries now src t' es'
      end
  end.

(** Lines 37-60: the body of the [try]. *)
Definition collect_from_feed_body (now : nat -> naive)
  (feed_url : option pystr) (src : pystr) : outcome (list article) :=
  feed ← feedparser_parse feed_url;
  if negb (feed_bool feed) || bool_decide (entries feed = []) then mret []
  else mret (process_entries now src 0 (take 15 (entries feed))).

(** Lines 32-63. *)
Definition collect_from_feed (now : nat -> naive) (cfg : feed_config)
  : outcome (list article) :=
  let feed_url := feed_url cfg in
  let src := default (u "Unknown") (feed_source cfg) in
  try_except (collect_from_feed_body now feed_url src) (fun e => mret []).

(** Lines 67-77: the loop of [save_articles]. An exception that
    leaves a turn of the loop ends it. *)
Fixpoint save_loop (stats : gmap string pyval) (db : DB)
  (articles : list article) : outcome (gmap string pyval) * DB :=
  match articles with
  | [] => (Ret stats, db)
  | a :: rest =>
      let '(r, db') := insert_article db a in
      let turn :=
        try_except
          (inserted ← r;
           mret (if inserted : bool then incr "inserted" stats
                 else incr "skipped" stats))
          (fun e => mret (incr "skipped" stats)) in
      match turn with
      | Ret stats' => save_loop stats' db' rest
      | Raise e => (Raise e, db')
      end
  end.

(** What the successive calls of [db.insert_article] of that loop
    answer, and the state in which they leave the database. *)
Fixpoint insert_results (db : DB) (articles : list article)
  : list (outcome bool) :=
  match articles with
  | [] => []
  | a :: rest =>
      let '(r, db') := insert_article db a in
      r :: insert_results db' rest
  end.

(** Lines 71-77: a turn counts as inserted when the call returns a true
    value, and as skipped when it returns a false one or raises. *)
Definition is_inserted (r : outcome bool) : bool :=
  match r with
  | Ret true => true
  | _ => false
  end.

Definition db_after (db : DB) (articles : list article) : DB :=
  foldl (fun db a => (insert_article db a).2) db articles.

(** Lines 65-78. *)
Definition save_articles (db : DB) (articles : list article)
  : outcome (gmap string pyval) * DB :=
  let stats : gmap string pyval :=
    {[ "inserted" := VInt 0; "updated" := VInt 0; "skipped" := VInt 0 ]} in
  save_loop stats db articles.

(** Line 82. *)
Definition initial_stats : gmap string pyval :=
  {[ "total_processed" := VInt 0; "total_inserted" := VInt 0;
     "total_updated" := VInt 0; "total_skipped" := VInt 0;
     "failed_feeds" := VList []; "successful_feeds" := VList [] ]}.

(** The dictionary of line 111; [stats] is [self.stats]. *)
Record result := Result {
  status : pystr;
  duration : float;
  stats : gmap string pyval
}.

(** Lines 80-111, for a list [FEEDS]. [clock i] gives the values of
    [datetime.now()] seen by the task of the feed at position [i],
    [order] the order in which the tasks finish, [start_time] and
    [end_time] the two values of [time.time()]. *)
Definition collect_all_news_of (FEEDS : list feed_config)
  (clock : nat -> nat -> naive) (order : list nat)
  (start_time end_time : float) (db : DB) (max_feeds : option Z)
  : outcome result * DB :=
  let self_stats := initial_stats in
  let feeds_to_process := feeds_to_process FEEDS max_feeds in
  let futures :=
    imap (fun i feed => collect_from_feed (clock i) feed)
         feeds_to_process in
  match mapM (fun future => future) (as_completed order futures) with
  | Raise e => (Raise e, db)
  | Ret lists =>
      let all_articles := concat lists in
      let unique_articles := unique_articles all_articles in
      let '(saved, db) :=
        if bool_decide (unique_articles = []) then (Ret self_stats, db)
        else
          let '(r, db') := save_articles db unique_articles in
          (save_stats ← r; mret (save_stats ∪ self_stats), db') in
      (self_stats ← saved;
       let duration := fsub end_time start_time in
       mret (Result (u "success") duration self_stats), db)
  end.

(** Lines 80-111. *)
Definition collect_all_news := collect_all_news_of FEEDS.

End collector.

Arguments Result {float} status duration stats.
Arguments status {float} r.
Arguments duration {float} r.
Arguments stats {float} r.

End main.

(** ** backend/main.py: the endpoints *)
Module api.
Import datetime main.

(** A value in a row of the database. *)
Inductive sqlval :=
| SNull
| SInt (n : Z)
| SText (s : pystr).

(** What an endpoint answers: the value it returns, or the
    [HTTPException(status_code, detail)] it raises. *)
Inductive http (A : Type) :=
| Ok (a : A)
| HTTPException (status_code : Z) (detail : pystr).
Arguments Ok {A} a.
Arguments HTTPException {A} status_code detail.

(** [str(e)] *)
Definition str_of_exn (e : exn) : pystr :=
  match e with Exception msg => u msg end.

(** [row[name]] for a row read as a dictionary: [KeyError] when the name
    is missing. *)
Definition getitem (name : string) (row : gmap string sqlval)
  : outcome sqlval :=
  match row !! name with
  | Some v => Ret v
  | None => Raise (Exception ("'" ++ name ++ "'"))
  end.

(** The dictionary of lines 167-171. *)
Record collect_response (float : Type) := CollectResponse {
  message : pystr;
  response_status : pystr;
  response_duration : float;
  inserted : pyval;
  total_articles : sqlval
}.
Arguments CollectResponse {float} _ _ _ _ _.
Arguments message {float} _.
Arguments response_status {float} _.
Arguments response_duration {float} _.
Arguments inserted {float} _.
Arguments total_articles {float} _.

Section endpoints.

Variable feedparser_parse : option pystr -> outcome feed.
Variable dateutil_parse : pystr -> outcome datetime.
Variable DB : Type.
Variable insert_article : DB -> article -> outcome bool * DB.
Variable float : Type.
Variable fsub : float -> float -> float.

(** [db.execute_query(sql)] *)
Variable execute_query : DB -> pystr -> outcome (list (gmap string sqlval)) * DB.

(** Lines 159-171: the body of the [try] of [collect_news_now]. *)
Definition collect_news_now_body (clock : nat -> nat -> naive)
  (order : list nat) (start_time end_time : float) (db : DB)
  (max_feeds : option Z) : outcome (collect_response float) * DB :=
  let '(r, db) :=
    collect_all_news feedparser_parse dateutil_parse DB insert_article
      float fsub clock order start_time end_time db max_feeds in
  match r with
  | Raise e => (Raise e, db)
  | Ret result =>
      let '(q, db) :=
        execute_query db (u "SELECT COUNT(*) as count FROM articles") in
      match q with
      | Raise e => (Raise e, db)
      | Ret total_articles_result =>
          let total_articles :=
            match total_articles_result with
            | row :: _ => getitem "count" row
            | [] => Ret (SInt 0)
            end in
          let stats := stats result in
          (total_articles ← total_articles;
           mret (CollectResponse
                   (u "뉴스 수집 완료") (u "success") (duration result)
                   (default (VInt 0) (stats !! "inserted"))
                   total_articles),
           db)
      end
  end.

(** Lines 156-174. *)
Definition collect_news_now (clock : nat -> nat -> naive)
  (order : list nat) (start_time end_time : float) (db : DB)
  (max_feeds : option Z) : http (collect_response float) * DB :=
  let '(r, db) :=
    collect_news_now_body clock order start_time end_time db max_feeds in
  (match r with
   | Ret response => Ok response
   | Raise e =>
       HTTPException 500 (u "뉴스 수집 중 오류 발생: " ++ str_of_exn e)
   end, db).

(** Lines 140-147. *)
Definition get_sources (db : DB) : http (list sqlval) * DB :=
  let '(q, db) :=
    execute_query db
      (u "SELECT DISTINCT source FROM articles ORDER BY source") in
  (match results ← q; mapM (getitem "source") results with
   | Ret sources => Ok sources
   | Raise e => HTTPException 500 (u "Failed to fetch sources.")
   end, db).

End endpoints.

End api.

(** ** Concrete environments, for the examples *)
Module fixtures.
Import datetime main.

(** 3 November 2026, 17:25:00.000123 *)
Definition a_time : naive := Naive (Fields 2026 11 3 17 25 0 123) eq_refl.

Definition frozen_clock (t : nat) : naive := a_time.

(** A feed server that cannot be reached. *)
Definition unreachable (feed_url : option pystr) : outcome feed :=
  Raise (Exception "connection refused").

(** A date parser that knows ISO-8601 timestamps only. *)
Definition iso_only (published_str : pystr) : outcome datetime :=
  match fromisoformat published_str with
  | Some d => Ret d
  | None => Raise (Exception "Unknown string format")
  end.

(** A database that holds the links it has seen, answers [False] for a
    link it holds and refuses links longer than 30 code points. *)
Definition link_store (db : list pystr) (a : article)
  : outcome bool * list pystr :=
  if bool_decide (30 < length (link a)) then
    (Raise (Exception "value too long"), db)
  else if bool_decide (link a ∈ db) then (Ret false, db)
  else (Ret true, link a :: db).

(** A feed of one entry that has a link and no title. *)
Definition untitled_feed (feed_url : option pystr) : outcome feed :=
  Ret (Feed true [Entry None (Some (u "https://example.org/a")) None None]).


Definition some_articles : list article :=
  map (fun l => Article (u "t") (u l) [] (u "s") [] (u "[]")) [
    "https://example.org/1";
    "https://example.org/a-very-long-link";
    "https://example.org/1";
    "https://example.org/2"
  ]%string.

End fixtures.

Module api_fixtures.
Import datetime main api fixtures.

(** A feed server with one document of two entries for every address. *)
Definition two_entries (feed_url : option pystr) : outcome feed :=
  Ret (Feed true [
    Entry (Some (u "Chips")) (Some (u "https://example.org/chips"))
          (Some (u "2026-11-03T09:00:00")) None;
    Entry (Some (u "Cloud")) (Some (u "https://example.org/cloud"))
          None (Some (u "About clouds"))
  ]).

(** A database whose queries fail. *)
Definition query_fails (db : list pystr) (sql : pystr)
  : outcome (list (gmap string sqlval)) * list pystr :=
  (Raise (Exception "database is locked"), db).

(** A database that counts the links it holds, whatever the query. *)
Definition count_links (db : list pystr) (sql : pystr)
  : outcome (list (gmap string sqlval)) * list pystr :=
  (Ret [ {[ "count" := SInt (Z.of_nat (length db)) ]} ], db).

(** A database whose rows have a [name] column only. *)
Definition name_rows (db : list pystr) (sql : pystr)
  : outcome (list (gmap string sqlval)) * list pystr :=
  (Ret [ {[ "name" := SText (u "Bloter") ]} ], db).

(** Two rows with a [source] column. *)
Definition source_rows (db : list pystr) (sql : pystr)
  : outcome (list (gmap string sqlval)) * list pystr :=
  (Ret [ {[ "source" := SText (u "Bloter") ]};
         {[ "source" := SText (u "Platum") ]} ], db).

End api_fixtures.

(** * Properties *)

(** ** Python primitives *)
Module PyFacts.

Lemma truthy_false (s : pystr) : truthy s = false <-> s = [].
Proof. destruct s; simpl; split; congruence. Qed.

Lemma truthy_true (s : pystr) : truthy s = true <-> s <> [].
Proof. destruct s; simpl; split; congruence. Qed.

Lemma mem_false (x : pystr) (l : list pystr) : mem x l = false <-> x ∉ l.
Proof. unfold mem. apply bool_decide_eq_false. Qed.

Lemma take_filter_keeps {A} (P : A -> Prop) `{!forall x, Decision (P x)}
  (n : nat) (l : list A) (x : A) :
  x ∈ take n (filter P l) -> P x.
Proof.
  intros Hx. apply elem_of_take in Hx as (i & Hi & _).
  apply list_elem_of_lookup_2 in Hi.
  by apply list_elem_of_filter in Hi as [HP _].
Qed.

End PyFacts.

(** ** The keyword extractor *)
Module keyword_maker_spec.
Import keyword_maker PyFacts.

(** Line 33 ends inside the literal that the quote of [wouldn't] opens. *)
Lemma line_33_is_unterminated : scan InCode line_33 = InString 39.
Proof. vm_compute. reflexivity. Qed.

Lemma import_raises : import_module = Raise (Exception "SyntaxError").
Proof. unfold import_module. by rewrite line_33_is_unterminated. Qed.

Section properties.

Variable lower : pystr -> pystr.
Variable STOP_WORDS : list pystr.
Variable chat_completion : pystr -> pystr -> outcome pystr.

(** The filter of lines 70-73 and 100-103, read as a proposition. *)
Lemma keep_keyword_spec (k : pystr) :
  keep_keyword lower STOP_WORDS k = true ->
  1 < len k /\ lower k ∉ STOP_WORDS.
Proof.
  unfold keep_keyword. intros H.
  apply andb_true_iff in H as [Hstop Hlen].
  apply negb_true_iff, mem_false in Hstop.
  apply Nat.ltb_lt in Hlen. done.
Qed.

(** What both paths of the bodies end with: [filtered_keywords[:8]]. *)
Lemma filtered_prefix_ok (ks : list pystr) :
  let r :=
    take 8 (filter (fun k => keep_keyword lower STOP_WORDS k = true) ks) in
  length r <= 8 /\
  forall k, k ∈ r -> 1 < len k /\ lower k ∉ STOP_WORDS.
Proof.
  simpl. split.
  - rewrite length_take. lia.
  - intros k Hk. apply keep_keyword_spec.
    by apply take_filter_keeps in Hk.
Qed.

(** The two ways out of the body of [extract_keywords] past the guard of
    line 43. *)
Lemma extract_keywords_paths (key text : pystr) :
  key <> [] -> text <> [] ->
  extract_keywords lower STOP_WORDS (Some key) chat_completion text =
    match chat_completion key (prompt_head ++ take 1000 text ++ prompt_tail) with
    | Ret content =>
        Ret (take 8 (filter (fun k => keep_keyword lower STOP_WORDS k = true)
               (omap (fun k => if truthy (strip k) then Some (strip k)
                               else None)
                     (split 44 (strip content)))))
    | Raise _ => Ret (extract_simple_keywords lower STOP_WORDS text)
    end.
Proof.
  intros Hkey Htext. unfold extract_keywords.
  apply truthy_true in Hkey, Htext. rewrite Hkey, Htext. simpl.
  unfold remote_keywords.
  by destruct (chat_completion _ _).
Qed.

(** In the body, the rule-based extractor is what a failing remote call
    leads to. *)
Lemma extract_keywords_fallback (key text : pystr) (e : exn) :
  key <> [] -> text <> [] ->
  chat_completion key (prompt_head ++ take 1000 text ++ prompt_tail)
    = Raise e ->
  extract_keywords lower STOP_WORDS (Some key) chat_completion text
    = Ret (extract_simple_keywords lower STOP_WORDS text).
Proof.
  intros Hkey Htext Hchat.
  by rewrite (extract_keywords_paths key text), Hchat.
Qed.

(** C2, as amended. In the body of [extract_keywords], whatever the
    value of [STOP_WORDS], an unset API key ([None], or the empty string,
    which line 43 treats alike) is answered by the guard of line 43 with
    the empty list, for every text: the guard returns before the [try],
    so a missing credential does not lead to the rule-based extractor.
    Nothing is said here of whether a call of the shipped module gets
    that far (see C6). *)
Theorem C2_unset_key_returns_empty (OPENAI_API_KEY : option pystr)
  (text : pystr) :
  OPENAI_API_KEY = None \/ OPENAI_API_KEY = Some [] ->
  extract_keywords lower STOP_WORDS OPENAI_API_KEY chat_completion text
    = Ret [].
Proof.
  unfold extract_keywords. intros [-> | ->]; [done |].
  simpl. by rewrite orb_true_r.
Qed.

(** The bodies of the two functions do end in the filter and the cut
    that the claim C6 describes, on every path and for every value of
    [STOP_WORDS]: what keeps them from returning is line 33 alone. *)
Lemma bodies_filter_keywords (OPENAI_API_KEY : option pystr)
  (text : pystr) :
  (exists ks,
      extract_keywords lower STOP_WORDS OPENAI_API_KEY chat_completion text
        = Ret ks
      /\ length ks <= 8
      /\ forall k, k ∈ ks -> 1 < len k /\ lower k ∉ STOP_WORDS)
  /\ length (extract_simple_keywords lower STOP_WORDS text) <= 8
  /\ forall k, k ∈ extract_simple_keywords lower STOP_WORDS text ->
               1 < len k /\ lower k ∉ STOP_WORDS.
Proof.
  assert (Hsimple :
    length (extract_simple_keywords lower STOP_WORDS text) <= 8 /\
    forall k, k ∈ extract_simple_keywords lower STOP_WORDS text ->
              1 < len k /\ lower k ∉ STOP_WORDS)
    by apply filtered_prefix_ok.
  split; [| exact Hsimple].
  assert (Hnil : exists ks : list pystr,
             Ret [] = Ret ks /\ length ks <= 8 /\
             forall k, k ∈ ks -> 1 < len k /\ lower k ∉ STOP_WORDS).
  { exists []. split_and!; [done | simpl; lia |].
    intros k Hk. by apply elem_of_nil in Hk. }
  destruct OPENAI_API_KEY as [key |]; [| exact Hnil].
  destruct (decide (key = [])) as [-> | Hkey].
  { unfold extract_keywords. simpl. rewrite orb_true_r. exact Hnil. }
  destruct (decide (text = [])) as [-> | Htext]; [exact Hnil |].
  rewrite (extract_keywords_paths key text) by done.
  destruct (chat_completion _ _) as [content | e].
  - eexists. split; [done |]. apply filtered_prefix_ok.
  - eexists. split; [done |]. exact Hsimple.
Qed.

(** C6, as the code has it. The module does not parse (line 33), so for
    every text, every API key and every behaviour of the remote call, a
    caller of [extract_keywords] or of [extract_simple_keywords] gets
    [SyntaxError] from the import and no list of keywords at all. *)
Theorem C6_import_raises_SyntaxError (OPENAI_API_KEY : option pystr)
  (text : pystr) :
  imported (extract_keywords lower STOP_WORDS OPENAI_API_KEY
                             chat_completion text)
    = Raise (Exception "SyntaxError")
  /\ imported (mret (extract_simple_keywords lower STOP_WORDS text))
     = Raise (Exception "SyntaxError").
Proof. unfold imported. by rewrite import_raises. Qed.

End properties.

(** With no key in the environment and the text [AI]: the caller of the
    shipped module gets [SyntaxError], not the result of the fallback;
    and in the bodies, for every [STOP_WORDS] without [ai], the guard
    answers with the empty list while the rule-based extractor finds
    [AI]. *)
Lemma C2_counterexample :
  imported (extract_keywords ascii_lower [] None
              (fun _ _ => Raise (Exception "no key")) (u "AI"))
    = Raise (Exception "SyntaxError")
  /\ forall STOP_WORDS : list pystr,
       u "ai" ∉ STOP_WORDS ->
       extract_keywords ascii_lower STOP_WORDS None
         (fun _ _ => Raise (Exception "no key")) (u "AI") = Ret []
       /\ extract_simple_keywords ascii_lower STOP_WORDS (u "AI")
          = [u "AI"].
Proof.
  split; [by vm_compute |].
  intros STOP_WORDS Hai. split; [done |].
  unfold extract_simple_keywords.
  assert (Hfound :
    filter (fun term =>
              contains (ascii_lower term) (ascii_lower (u "AI")) = true)
           tech_terms = [u "AI"]) by (by vm_compute).
  rewrite Hfound. rewrite filter_cons_True, filter_nil; [done |].
  unfold keep_keyword. apply andb_true_iff. split; [| done].
  apply negb_true_iff, mem_false. exact Hai.
Qed.

Lemma C2_unset_key_returns_empty_witness :
  extract_keywords ascii_lower [u "the"] None
    (fun _ _ => Ret (u "AI, cloud")) (u "AI chips") = Ret [].
Proof.
  apply C2_unset_key_returns_empty.
  left. reflexivity.
Defined.

End keyword_maker_spec.

(** ** Timestamps *)
Module datetime_spec.
Import datetime.

Lemma read_digits_digits (w : nat) (n acc : N) (rest : pystr) :
  (n < 10 ^ N.of_nat w)%N ->
  read_digits w acc (digits w n ++ rest)
    = Some ((acc * 10 ^ N.of_nat w + n)%N, rest).
Proof.
  revert n acc. induction w as [| w IH]; intros n acc Hn.
  - simpl in *. f_equal. f_equal. lia.
  - rewrite Nat2N.inj_succ, N.pow_succ_r' in Hn |- *.
    assert (Hpos : (10 ^ N.of_nat w <> 0)%N) by (apply N.pow_nonzero; lia).
    assert (Hq : (n / 10 ^ N.of_nat w < 10)%N)
      by (apply N.Div0.div_lt_upper_bound; lia).
    assert (Hr : (n mod 10 ^ N.of_nat w < 10 ^ N.of_nat w)%N)
      by (apply N.mod_lt; lia).
    pose proof (N.div_mod n (10 ^ N.of_nat w)) as Hdm.
    cbn [digits app read_digits].
    set (p := (10 ^ N.of_nat w)%N) in *.
    set (q := (n / p)%N) in *. set (r := (n mod p)%N) in *.
    assert (Hd : is_digit (48 + q) = true).
    { unfold is_digit. apply andb_true_iff. split; apply N.leb_le; lia. }
    rewrite Hd, IH by done. f_equal. f_equal. fold p. nia.
Qed.

Lemma expect_cons (c : N) (r : pystr) : expect c (c :: r) = Some r.
Proof. unfold expect. by rewrite N.eqb_refl. Qed.

Lemma valid_fields_bounds (f : fields) :
  valid_fields f = true ->
  (year f < 10 ^ N.of_nat 4 /\ month f < 10 ^ N.of_nat 2
   /\ day f < 10 ^ N.of_nat 2 /\ hour f < 10 ^ N.of_nat 2
   /\ minute f < 10 ^ N.of_nat 2 /\ second f < 10 ^ N.of_nat 2
   /\ microsecond f < 10 ^ N.of_nat 6)%N.
Proof.
  unfold valid_fields. rewrite !andb_true_iff.
  rewrite !N.leb_le, !N.ltb_lt.
  intros H. destruct_and!.
  assert (days_in_month (year f) (month f) <= 31)%N.
  { unfold days_in_month. repeat case_match; lia. }
  change (10 ^ N.of_nat 4)%N with 10000%N.
  change (10 ^ N.of_nat 2)%N with 100%N.
  change (10 ^ N.of_nat 6)%N with 1000000%N.
  lia.
Qed.

Lemma read_offset_format (o : option Z) :
  valid_offset o = true -> read_offset (format_offset o) = Some o.
Proof.
  destruct o as [m |]; [| done].
  unfold valid_offset. rewrite andb_true_iff, !Z.ltb_lt. intros [Hlo Hhi].
  unfold format_offset, read_offset.
  set (a := Z.to_N (Z.abs m)).
  assert (Ha : (a < 1440)%N) by lia.
  assert (Hh : (a / 60 < 24)%N) by (apply N.Div0.div_lt_upper_bound; lia).
  assert (Hm : (a mod 60 < 60)%N) by (apply N.mod_lt; lia).
  pose proof (N.div_mod a 60) as Hdm.
  replace ((if (m <? 0)%Z then 45%N else 43%N) =? 43)%N
    with (negb (m <? 0)%Z) by (by destruct (m <? 0)%Z).
  replace ((if (m <? 0)%Z then 45%N else 43%N) =? 45)%N
    with (m <? 0)%Z by (by destruct (m <? 0)%Z).
  rewrite orb_comm, orb_negb_r.
  rewrite read_digits_digits
    by (change (10 ^ N.of_nat 2)%N with 100%N; lia).
  cbn [mbind option_bind app]. rewrite expect_cons. cbn [mbind option_bind].
  rewrite <- (app_nil_r (digits 2 (a mod 60))).
  rewrite read_digits_digits
    by (change (10 ^ N.of_nat 2)%N with 100%N; lia).
  cbn [mbind option_bind].
  replace (0 * 10 ^ N.of_nat 2 + a / 60)%N with (a / 60)%N by lia.
  replace (0 * 10 ^ N.of_nat 2 + a mod 60)%N with (a mod 60)%N by lia.
  apply N.ltb_lt in Hh as Hh', Hm as Hm'. rewrite Hh', Hm'. simpl.
  f_equal. f_equal.
  destruct (m <? 0)%Z eqn:Hneg; [apply Z.ltb_lt in Hneg | apply Z.ltb_ge in Hneg];
    lia.
Qed.

Lemma read_fraction_format (us : N) (rest : pystr) :
  (us < 10 ^ N.of_nat 6)%N ->
  (forall r, rest <> 46%N :: r) ->
  read_fraction
    ((if (us =? 0)%N then [] else 46%N :: digits 6 us) ++ rest)
    = Some (us, rest).
Proof.
  intros Hus Hrest. destruct (us =? 0)%N eqn:Hz.
  - apply N.eqb_eq in Hz as ->. simpl.
    destruct rest as [| c r]; [done |].
    unfold read_fraction.
    destruct (decide (c = 46%N)) as [-> | Hc]; [by destruct (Hrest r) |].
    repeat case_match; try done; subst; done.
  - cbn [app read_fraction]. by rewrite read_digits_digits.
Qed.

Lemma format_offset_no_dot (o : option Z) (r : pystr) :
  format_offset o <> 46%N :: r.
Proof. destruct o as [m |]; simpl; [| done]. by destruct (m <? 0)%Z. Qed.

(** Reading back what [isoformat] writes. *)
Lemma parse_iso8601_format (f : fields) (o : option Z) :
  valid_fields f = true -> valid_offset o = true ->
  parse_iso8601 (format_fields f ++ format_offset o) = Some (f, o).
Proof.
  intros Hf Ho. destruct (valid_fields_bounds f Hf) as (?&?&?&?&?&?&?).
  unfold parse_iso8601, format_fields.
  rewrite <- !app_assoc.
  repeat (rewrite read_digits_digits by done;
          cbn [mbind option_bind app];
          try rewrite expect_cons; cbn [mbind option_bind]).
  rewrite read_fraction_format
    by (done || apply format_offset_no_dot).
  cbn [mbind option_bind]. rewrite read_offset_format by done.
  cbn [mbind option_bind]. destruct f. simpl.
  repeat f_equal; lia.
Qed.

(** What [isoformat] returns is a valid ISO-8601 timestamp, for every
    [datetime] object. *)
Lemma isoformat_valid (d : datetime) : is_iso8601 (isoformat d) = true.
Proof.
  unfold is_iso8601, isoformat.
  rewrite parse_iso8601_format by (apply local_ok || apply offset_ok).
  by rewrite local_ok, offset_ok.
Qed.

End datetime_spec.

(** ** Deduplication by link *)
Module dedupe_spec.
Import main.

Lemma dict_set_keys (k : pystr) (v : article) (d : list (pystr * article)) :
  (dict_set k v d).*1 = if decide (k ∈ d.*1) then d.*1 else d.*1 ++ [k].
Proof.
  induction d as [| [k' v'] d IH]; [done |].
  cbn [dict_set]. destruct (decide (k = k')) as [-> | Hne].
  - rewrite decide_True by (cbn; left). done.
  - cbn [fmap list_fmap fst]. fold (fmap (M:=list) (@fst pystr article)).
    rewrite IH. destruct (decide (k ∈ d.*1)) as [Hin | Hnin].
    + rewrite decide_True by (by right). done.
    + rewrite decide_False; [done |].
      intros [? | ?]%elem_of_cons; done.
Qed.

Lemma dict_set_NoDup (k : pystr) (v : article) (d : list (pystr * article)) :
  NoDup d.*1 -> NoDup (dict_set k v d).*1.
Proof.
  intros Hd. rewrite dict_set_keys. case_decide; [done |].
  apply NoDup_app. split_and!; [done | | apply NoDup_singleton].
  intros x Hx ->%list_elem_of_singleton. done.
Qed.

Lemma dict_set_elem (k : pystr) (v : article) (d : list (pystr * article))
  (k' : pystr) (v' : article) :
  NoDup d.*1 ->
  (k', v') ∈ dict_set k v d <->
  (k' = k /\ v' = v) \/ (k' <> k /\ (k', v') ∈ d).
Proof.
  induction d as [| [k0 v0] d IH]; intros Hd.
  - cbn. rewrite list_elem_of_singleton, elem_of_nil.
    split; [intros [= -> ->]; by left | intros [[-> ->] | [_ []]]; done].
  - cbn [dict_set]. apply NoDup_cons in Hd as [Hk0 Hd].
    destruct (decide (k = k0)) as [-> | Hne].
    + rewrite !elem_of_cons. split.
      * intros [[= -> ->] | Hin]; [by left |].
        right. split; [| by right].
        intros ->. apply Hk0. by apply (list_elem_of_fmap_2 fst) in Hin.
      * intros [[-> ->] | [Hne [[= -> ->] | Hin]]]; [by left | done | by right].
    + rewrite !elem_of_cons, IH by done.
      split; [intros [[= -> ->] | [? | ?]] | intros [? | [? [? | ?]]]];
        intuition congruence.
Qed.

(** What the comprehension has built after reading [l]: one entry for
    each link, holding the last article of [l] with that link. *)
Lemma dict_of_spec (l : list article) :
  NoDup (dict_of l).*1 /\
  forall k v, (k, v) ∈ dict_of l <->
              last (filter (fun b => link b = k) l) = Some v.
Proof.
  unfold dict_of. induction l as [| a l [IHnd IH]] using rev_ind.
  - split; [constructor |]. intros k v. cbn. rewrite elem_of_nil.
    split; [done | discriminate].
  - rewrite foldl_snoc. split; [by apply dict_set_NoDup |].
    intros k v. rewrite dict_set_elem by done.
    rewrite filter_app, filter_cons, filter_nil.
    destruct (decide (link a = k)) as [<- | Hne].
    + rewrite last_snoc. split; [intros [[_ ->] | [[] _]] | intros [= ->]]; auto.
    + rewrite app_nil_r, IH. split; [intros [[-> _] | [_ ?]] | auto]; done.
Qed.

Lemma unique_articles_link (l : list article) :
  link <$> unique_articles l = (dict_of l).*1.
Proof.
  unfold unique_articles. destruct (dict_of_spec l) as [_ H].
  rewrite <- list_fmap_compose. apply list_fmap_ext.
  intros i [k v] Hi. cbn.
  apply list_elem_of_lookup_2, H, last_Some_elem_of in Hi.
  by apply list_elem_of_filter in Hi as [-> _].
Qed.

Lemma filter_none {A} (P : A -> Prop) `{!forall x, Decision (P x)}
  (l : list A) :
  (forall x, x ∈ l -> ~ P x) -> filter P l = [].
Proof.
  induction l as [| x l IH]; intros Hall; [done |].
  rewrite filter_cons_False by (apply Hall; left).
  apply IH. intros z Hz. apply Hall. by right.
Qed.

Lemma NoDup_fmap_one {A B} `{EqDecision B} (f : A -> B) (l : list A) (y : B) :
  NoDup (f <$> l) -> y ∈ f <$> l ->
  length (filter (fun x => f x = y) l) = 1.
Proof.
  induction l as [| x l IH]; intros Hnd Hin.
  - by apply elem_of_nil in Hin.
  - rewrite fmap_cons in Hnd, Hin.
    apply NoDup_cons in Hnd as [Hx Hnd]. rewrite filter_cons.
    destruct (decide (f x = y)) as [<- | Hne].
    + cbn. f_equal. apply length_zero_iff_nil, filter_none.
      intros z Hz Hfz. apply Hx.
      rewrite <- Hfz. by apply list_elem_of_fmap_2.
    + apply IH; [done |]. by apply elem_of_cons in Hin as [-> | Hin].
Qed.

(** C5. For every collection of per-feed article lists, flattened in the
    order in which they were added to [all_articles], the deduplicated
    list has exactly one article for each link that occurs, no link
    twice, and the article kept for a link is the last one with that link
    in the flattened list. *)
Theorem C5_dedupe_last_wins (lists : list (list article)) :
  let all_articles := concat lists in
  let unique := unique_articles all_articles in
  NoDup (link <$> unique)
  /\ (forall k, k ∈ link <$> all_articles ->
                length (filter (fun a => link a = k) unique) = 1)
  /\ (forall a, a ∈ unique ->
                last (filter (fun b => link b = link a) all_articles) = Some a)
  /\ (forall a, a ∈ unique -> a ∈ all_articles).
Proof.
  intros all_articles unique. subst unique.
  destruct (dict_of_spec all_articles) as [Hnd Hspec].
  assert (Hlast : forall a, a ∈ unique_articles all_articles ->
            last (filter (fun b => link b = link a) all_articles) = Some a).
  { intros a Ha. unfold unique_articles in Ha.
    apply list_elem_of_fmap in Ha as ([k v] & -> & Hkv). cbn.
    apply Hspec in Hkv.
    pose proof (last_Some_elem_of _ _ Hkv) as Hk.
    apply list_elem_of_filter in Hk as [-> _]. done. }
  split_and!.
  - by rewrite unique_articles_link.
  - intros k Hk. apply NoDup_fmap_one.
    + by rewrite unique_articles_link.
    + rewrite unique_articles_link.
      apply list_elem_of_fmap in Hk as (b & -> & Hb).
      assert (Hne : filter (fun c => link c = link b) all_articles <> []).
      { intros Hnil. by apply (filter_nil_not_elem_of _ _ b) in Hnil. }
      destruct (last (filter (fun c => link c = link b) all_articles))
        as [v |] eqn:Hl; [| by apply last_None in Hl].
      apply Hspec in Hl. by apply (list_elem_of_fmap_2 fst) in Hl.
  - exact Hlast.
  - intros a Ha. apply Hlast, last_Some_elem_of in Ha.
    by apply list_elem_of_filter in Ha as [_ ?].
Qed.

End dedupe_spec.

(** ** Collecting one feed *)
Module feed_spec.
Import datetime main datetime_spec PyFacts fixtures.

Section properties.

Variable dateutil_parse : pystr -> outcome datetime.
Variable now : nat -> naive.

(** An entry is skipped exactly when the title it has, or ["No Title"]
    for a missing one, or the link it has, or [""] for a missing one,
    is empty once stripped; a skipped entry reads no clock. *)
Lemma process_entry_skip (src : pystr) (t : nat) (e : entry) :
  strip (default (u "No Title") (entry_title e)) = []
  \/ strip (default [] (entry_link e)) = [] ->
  process_entry dateutil_parse now src t e = (None, t).
Proof.
  intros H. unfold process_entry.
  destruct H as [H | H]; apply truthy_false in H; rewrite H;
    [done | by rewrite orb_true_r].
Qed.

Lemma process_entry_emit (src : pystr) (t : nat) (e : entry) :
  strip (default (u "No Title") (entry_title e)) <> [] ->
  strip (default [] (entry_link e)) <> [] ->
  exists published t',
    process_entry dateutil_parse now src t e =
      (Some (Article (strip (default (u "No Title") (entry_title e)))
                     (strip (default [] (entry_link e)))
                     published src (default [] (entry_summary e))
                     (u "[]")), t')
    /\ (published, t') =
         match dateutil_parse
                 (default (isoformat (of_naive (now t)))
                          (entry_published e)) with
         | Ret d => (isoformat d, S t)
         | Raise _ => (isoformat (of_naive (now (S t))), S (S t))
         end.
Proof.
  intros Ht Hl. unfold process_entry.
  apply truthy_true in Ht, Hl. rewrite Ht, Hl. cbn [negb orb].
  destruct (dateutil_parse _) as [d | ex]; eauto.
Qed.

(** Removing a skipped entry from the entries leaves the articles of
    the loop as they are. *)
Lemma process_entries_skip (src : pystr) (e : entry)
  (es1 es2 : list entry) (t : nat) :
  (forall t, process_entry dateutil_parse now src t e = (None, t)) ->
  process_entries dateutil_parse now src t (es1 ++ e :: es2)
    = process_entries dateutil_parse now src t (es1 ++ es2).
Proof.
  intros He. revert t. induction es1 as [| e1 es1 IH]; intros t.
  - cbn [app process_entries]. by rewrite He.
  - cbn [app process_entries].
    destruct (process_entry dateutil_parse now src t e1) as [[a |] t'];
      by rewrite IH.
Qed.

Lemma length_process_entries (src : pystr) (t : nat) (es : list entry) :
  length (process_entries dateutil_parse now src t es) <= length es.
Proof.
  revert t. induction es as [| e es IH]; intros t; [done |].
  cbn [process_entries].
  destruct (process_entry dateutil_parse now src t e) as [[a |] t'];
    cbn [length]; specialize (IH t'); lia.
Qed.

(** [collect_from_feed] by cases on what [feedparser.parse] does. *)
Lemma collect_from_feed_cases
  (feedparser_parse : option pystr -> outcome feed) (cfg : feed_config) :
  collect_from_feed feedparser_parse dateutil_parse now cfg =
    Ret match feedparser_parse (feed_url cfg) with
        | Raise _ => []
        | Ret f =>
            if negb (feed_bool f) || bool_decide (entries f = []) then []
            else process_entries dateutil_parse now
                   (default (u "Unknown") (feed_source cfg)) 0
                   (take 15 (entries f))
        end.
Proof.
  unfold collect_from_feed, collect_from_feed_body.
  destruct (feedparser_parse (feed_url cfg)) as [f | ex]; [| done].
  cbn. by destruct (negb (feed_bool f) || bool_decide (entries f = [])).
Qed.

(** A feed whose fetch raises, or that has no entries, gives no
    article and no exception. *)
Lemma collect_from_feed_failure
  (feedparser_parse : option pystr -> outcome feed) (cfg : feed_config) :
  match feedparser_parse (feed_url cfg) with
  | Raise _ => True
  | Ret f => feed_bool f = false \/ entries f = []
  end ->
  collect_from_feed feedparser_parse dateutil_parse now cfg = Ret [].
Proof.
  intros H. rewrite collect_from_feed_cases.
  destruct (feedparser_parse (feed_url cfg)) as [f | ex]; [| done].
  destruct H as [-> | ->]; [done |].
  by rewrite bool_decide_eq_true_2, orb_true_r.
Qed.

(** C3, as amended. An entry whose title is present and empty after
    trimming, or whose link is missing or empty after trimming, yields
    no article: the turn of the loop ends in [continue], and the
    articles of the feed are those of the feed without the entry. (An
    entry whose title is missing takes the title ["No Title"] and is
    kept if its link is usable: [missing_title_kept].) *)
Theorem C3_blank_title_or_link_excluded (src : pystr) (t : nat)
  (e : entry) :
  (exists ti, entry_title e = Some ti /\ strip ti = [])
  \/ entry_link e = None
  \/ (exists l, entry_link e = Some l /\ strip l = []) ->
  process_entry dateutil_parse now src t e = (None, t)
  /\ forall es1 es2 t0,
       process_entries dateutil_parse now src t0 (es1 ++ e :: es2)
         = process_entries dateutil_parse now src t0 (es1 ++ es2).
Proof.
  intros H.
  assert (Hskip : strip (default (u "No Title") (entry_title e)) = []
                  \/ strip (default [] (entry_link e)) = []).
  { destruct H as [(ti & -> & H) | [-> | (l & -> & H)]]; auto. }
  split; [by apply process_entry_skip |].
  intros es1 es2 t0. apply process_entries_skip.
  intros t1. by apply process_entry_skip.
Qed.

(** The other half: an entry without a title and with a usable link is
    kept, under the title ["No Title"]. *)
Lemma missing_title_kept (src : pystr) (t : nat) (e : entry) :
  entry_title e = None ->
  strip (default [] (entry_link e)) <> [] ->
  exists a t',
    process_entry dateutil_parse now src t e = (Some a, t')
    /\ title a = u "No Title".
Proof.
  intros Ht Hl.
  destruct (process_entry_emit src t e) as (p & t' & Heq & _);
    [by rewrite Ht | done |].
  eexists _, _. split; [exact Heq |]. by rewrite Ht.
Qed.

(** C7. Whatever the feed document holds, [collect_from_feed] returns
    at most 15 articles, and returns what it would return for the
    document cut after its first 15 entries. *)
Theorem C7_at_most_15_articles
  (feedparser_parse : option pystr -> outcome feed) (cfg : feed_config) :
  (exists articles,
      collect_from_feed feedparser_parse dateutil_parse now cfg
        = Ret articles
      /\ length articles <= 15)
  /\ collect_from_feed
       (fun feed_url =>
          f ← feedparser_parse feed_url;
          mret (Feed (feed_bool f) (take 15 (entries f))))
       dateutil_parse now cfg
     = collect_from_feed feedparser_parse dateutil_parse now cfg.
Proof.
  split.
  - rewrite collect_from_feed_cases. eexists. split; [done |].
    destruct (feedparser_parse (feed_url cfg)) as [f | ex];
      [| cbn; lia].
    destruct (negb (feed_bool f) || bool_decide (entries f = []));
      [cbn; lia |].
    etrans; [apply length_process_entries |].
    rewrite length_take. lia.
  - rewrite !collect_from_feed_cases.
    destruct (feedparser_parse (feed_url cfg)) as [f | ex];
      [| reflexivity].
    cbn [mbind outcome_bind bind mret outcome_ret feed_bool entries].
    rewrite take_take, Nat.min_id.
    assert (Hnil : bool_decide (take 15 (entries f) = [])
                   = bool_decide (entries f = [])).
    { destruct (entries f) as [| e es]; [done |].
      by rewrite !bool_decide_eq_false_2. }
    by rewrite Hnil.
Qed.

Lemma process_entries_published_valid (src : pystr) (t : nat)
  (es : list entry) (a : article) :
  a ∈ process_entries dateutil_parse now src t es ->
  is_iso8601 (published a) = true.
Proof.
  revert t. induction es as [| e es IH]; intros t Ha.
  - by apply elem_of_nil in Ha.
  - cbn [process_entries] in Ha. unfold process_entry in Ha.
    destruct (negb _ || negb _); [by eapply IH |].
    destruct (dateutil_parse _) as [d | ex];
      (apply elem_of_cons in Ha as [-> | Ha]; [| by eapply IH]);
      apply isoformat_valid.
Qed.


End properties.


(** In the feed of one entry that has a link and no title, the entry is
    not excluded: the feed yields one article, titled ["No Title"]. *)
Lemma C3_counterexample :
  entry_title (Entry None (Some (u "https://example.org/a")) None None)
    = None
  /\ exists a,
       collect_from_feed untitled_feed iso_only frozen_clock
                         (FeedConfig None None) = Ret [a]
       /\ title a = u "No Title"
       /\ link a = u "https://example.org/a".
Proof. split; [done |]. eexists. vm_compute. done. Qed.

Lemma C3_blank_title_or_link_excluded_witness :
  process_entry iso_only frozen_clock (u "Bloter") 0
    (Entry (Some (u "   ")) (Some (u "https://example.org/a")) None None)
    = (None, 0).
Proof.
  apply C3_blank_title_or_link_excluded.
  left. exists (u "   "). split; reflexivity.
Defined.

End feed_spec.

(** ** Saving the articles *)
Module save_spec.
Import main fixtures.

Lemma incr_lookup (key : string) (n : Z) (stats : gmap string pyval) :
  stats !! key = Some (VInt n) ->
  incr key stats !! key = Some (VInt (n + 1)).
Proof. intros H. unfold incr. by rewrite lookup_alter_eq, H. Qed.

Lemma incr_lookup_ne (key key' : string) (stats : gmap string pyval) :
  key <> key' -> incr key stats !! key' = stats !! key'.
Proof. intros H. unfold incr. by rewrite lookup_alter_ne. Qed.

Section properties.

Variable DB : Type.
Variable insert_article : DB -> article -> outcome bool * DB.

Lemma length_insert_results (db : DB) (articles : list article) :
  length (insert_results DB insert_article db articles) = length articles.
Proof.
  revert db. induction articles as [| a rest IH]; intros db; [done |].
  cbn [insert_results]. destruct (insert_article db a) as [r db'].
  cbn. by rewrite IH.
Qed.

Lemma count_split (results : list (outcome bool)) :
  length (filter (fun r => is_inserted r = true) results)
  + length (filter (fun r => is_inserted r = false) results)
  = length results.
Proof.
  induction results as [| r results IH]; [done |].
  rewrite !filter_cons.
  destruct (is_inserted r); repeat case_decide; try done; cbn; lia.
Qed.

(** The loop from any counters: every article has its call, in order,
    and each call moves exactly one of the two counters. *)
Lemma save_loop_spec (articles : list article) (stats : gmap string pyval)
  (db : DB) (i s : Z) :
  stats !! "inserted" = Some (VInt i) ->
  stats !! "skipped" = Some (VInt s) ->
  let results := insert_results DB insert_article db articles in
  exists stats',
    save_loop DB insert_article stats db articles
      = (Ret stats', db_after DB insert_article db articles)
    /\ stats' !! "inserted"
       = Some (VInt (i + Z.of_nat (length
            (filter (fun r => is_inserted r = true) results))))
    /\ stats' !! "skipped"
       = Some (VInt (s + Z.of_nat (length
            (filter (fun r => is_inserted r = false) results))))
    /\ stats' !! "updated" = stats !! "updated".
Proof.
  revert stats db i s.
  induction articles as [| a rest IH]; intros stats db i s Hi Hs.
  - exists stats. cbn. rewrite !Z.add_0_r. done.
  - cbn [save_loop insert_results db_after foldl].
    destruct (insert_article db a) as [r db'] eqn:Hcall. cbn [snd].
    fold (db_after DB insert_article db' rest).
    rewrite !filter_cons.
    destruct r as [[|] | ex]; cbn [is_inserted try_except mbind
      outcome_bind bind mret outcome_ret].
    + destruct (IH (incr "inserted" stats) db' (i + 1)%Z s)
        as (stats' & -> & Hi' & Hs' & Hu');
        [by apply incr_lookup | by rewrite incr_lookup_ne |].
      exists stats'. rewrite Hi', Hs', Hu', incr_lookup_ne by done.
      rewrite decide_True, decide_False by done.
      split_and!; try done. f_equal. f_equal. cbn [length]. lia.
    + destruct (IH (incr "skipped" stats) db' i (s + 1)%Z)
        as (stats' & -> & Hi' & Hs' & Hu');
        [by rewrite incr_lookup_ne | by apply incr_lookup |].
      exists stats'. rewrite Hi', Hs', Hu', incr_lookup_ne by done.
      rewrite decide_False, decide_True by done.
      split_and!; try done. f_equal. f_equal. cbn [length]. lia.
    + destruct (IH (incr "skipped" stats) db' i (s + 1)%Z)
        as (stats' & -> & Hi' & Hs' & Hu');
        [by rewrite incr_lookup_ne | by apply incr_lookup |].
      exists stats'. rewrite Hi', Hs', Hu', incr_lookup_ne by done.
      rewrite decide_False, decide_True by done.
      split_and!; try done. f_equal. f_equal. cbn [length]. lia.
Qed.

(** The loop touches no key but its two counters. *)
Lemma save_loop_other_keys (articles : list article)
  (stats stats' : gmap string pyval) (db db' : DB) (key : string) :
  key <> "inserted" -> key <> "skipped" ->
  save_loop DB insert_article stats db articles = (Ret stats', db') ->
  stats' !! key = stats !! key.
Proof.
  intros Hi Hs. revert stats db.
  induction articles as [| a rest IH]; intros stats db Heq.
  - cbn in Heq. by injection Heq as -> _.
  - cbn [save_loop] in Heq.
    destruct (insert_article db a) as [r db1].
    destruct r as [[|] | ex]; cbn [try_except mbind outcome_bind bind
      mret outcome_ret] in Heq;
      apply IH in Heq; by rewrite Heq, incr_lookup_ne.
Qed.

(** [save_articles] returns, with the database as its calls left it. *)
Lemma save_articles_returns (db : DB) (articles : list article) :
  exists stats,
    save_articles DB insert_article db articles
      = (Ret stats, db_after DB insert_article db articles).
Proof.
  unfold save_articles.
  edestruct (save_loop_spec articles) as (stats & Heq & _);
    [ | | by exists stats]; reflexivity.
Qed.

(** C9. For every list of articles and every behaviour of
    [db.insert_article], [save_articles] returns its counters without
    raising; every article has had its call, in order, also after a
    call that raised; [inserted] counts the calls that returned a true
    value and [skipped] the calls that returned a false one or raised;
    so [inserted + skipped] is the number of articles, and [updated]
    stays 0. *)
Theorem C9_every_article_counted (db : DB) (articles : list article) :
  let results := insert_results DB insert_article db articles in
  exists stats,
    save_articles DB insert_article db articles
      = (Ret stats, db_after DB insert_article db articles)
    /\ length results = length articles
    /\ get_int "inserted" 0 stats
       = Z.of_nat (length (filter (fun r => is_inserted r = true) results))
    /\ get_int "skipped" 0 stats
       = Z.of_nat (length (filter (fun r => is_inserted r = false) results))
    /\ (get_int "inserted" 0 stats + get_int "skipped" 0 stats
        = Z.of_nat (length articles))%Z
    /\ get_int "updated" 0 stats = 0%Z.
Proof.
  intros results. unfold save_articles.
  edestruct (save_loop_spec articles) as (stats & Heq & Hi & Hs & Hu);
    [ | | exists stats; split; [exact Heq |] ].
  - reflexivity.
  - reflexivity.
  - fold results in Hi, Hs. unfold get_int. rewrite Hi, Hs, Hu.
    pose proof (count_split results) as Hsplit.
    pose proof (length_insert_results db articles) as Hlen.
    fold results in Hlen.
    split_and!; [done | f_equal; lia | f_equal; lia | lia | done].
Qed.

End properties.

(** Four articles against [link_store]: the second is refused with an
    exception, the third is a link already held. *)
Example save_example :
  insert_results _ link_store [] some_articles
    = [Ret true; Raise (Exception "value too long"); Ret false; Ret true]
  /\ exists stats,
       (save_articles _ link_store [] some_articles).1 = Ret stats
       /\ get_int "inserted" 0 stats = 2%Z
       /\ get_int "skipped" 0 stats = 2%Z.
Proof. split; [by vm_compute |]. eexists. by vm_compute. Qed.

End save_spec.

(** ** The whole run *)
Module run_spec.
Import datetime main fixtures feed_spec save_spec.

(** [future.result()] over futures that all returned. *)
Lemma mapM_returned {A} (futures : list (outcome (list A))) :
  (forall f, f ∈ futures -> exists l, f = Ret l) ->
  exists lists,
    mapM (fun future => future) futures = Ret lists
    /\ forall l, l ∈ lists -> Ret l ∈ futures.
Proof.
  induction futures as [| f futures IH]; intros Hall.
  - exists []. split; [done |]. intros l Hl. by apply elem_of_nil in Hl.
  - destruct (Hall f) as [l0 ->]; [by left |].
    destruct IH as (lists & Heq & Hin).
    { intros f Hf. apply Hall. by right. }
    exists (l0 :: lists). cbn [mapM]. rewrite Heq. split; [done |].
    intros l [-> | Hl]%elem_of_cons; [by left | right; by apply Hin].
Qed.

Lemma elem_of_as_completed {A} (order : list nat) (futures : list A) (x : A) :
  x ∈ as_completed order futures -> x ∈ futures.
Proof.
  unfold as_completed. intros (i & _ & Hi)%list_elem_of_omap.
  by eapply list_elem_of_lookup_2.
Qed.

Section properties.

Variable feedparser_parse : option pystr -> outcome feed.
Variable dateutil_parse : pystr -> outcome datetime.
Variable DB : Type.
Variable insert_article : DB -> article -> outcome bool * DB.
Variable float : Type.
Variable fsub : float -> float -> float.

(** The run by cases on what was collected: every future has
    returned, and the counters are those of line 82, with those of
    [save_articles] on top when there is an article to save. *)
Lemma collect_all_news_cases (FEEDS : list feed_config)
  (clock : nat -> nat -> naive) (order : list nat)
  (start_time end_time : float) (db : DB) (max_feeds : option Z) :
  exists lists,
    mapM (fun future => future)
         (as_completed order
            (imap (fun i feed =>
                     collect_from_feed feedparser_parse dateutil_parse
                                       (clock i) feed)
                  (feeds_to_process FEEDS max_feeds)))
      = Ret lists
    /\ (forall l, l ∈ lists ->
          exists i feed,
            feeds_to_process FEEDS max_feeds !! i = Some feed
            /\ collect_from_feed feedparser_parse dateutil_parse
                                 (clock i) feed = Ret l)
    /\ collect_all_news_of feedparser_parse dateutil_parse DB
         insert_article float fsub FEEDS clock order start_time end_time
         db max_feeds
       = if bool_decide (unique_articles (concat lists) = []) then
           (Ret (Result (u "success") (fsub end_time start_time)
                        initial_stats), db)
         else
           match save_articles DB insert_article db
                   (unique_articles (concat lists)) with
           | (Ret save_stats, db') =>
               (Ret (Result (u "success") (fsub end_time start_time)
                            (save_stats ∪ initial_stats)), db')
           | (Raise e, db') => (Raise e, db')
           end.
Proof.
  destruct (mapM_returned
    (as_completed order
       (imap (fun i feed =>
                collect_from_feed feedparser_parse dateutil_parse
                                  (clock i) feed)
             (feeds_to_process FEEDS max_feeds))))
    as (lists & Heq & Hin).
  { intros f Hf%elem_of_as_completed.
    apply elem_of_lookup_imap in Hf as (i & feed & -> & _).
    rewrite collect_from_feed_cases. eauto. }
  exists lists. split_and!; [done | |].
  - intros l Hl%Hin%elem_of_as_completed.
    apply elem_of_lookup_imap in Hl as (i & feed & Hl & Hi). eauto.
  - unfold collect_all_news_of. rewrite Heq.
    destruct (bool_decide (unique_articles (concat lists) = []));
      [done |].
    destruct (save_articles _ _ _ _) as [[save_stats | e] db']; done.
Qed.

(** C1, as amended. For every list of feed sources and every behaviour
    of the feeds, the database and the scheduler, [collect_all_news]
    returns its summary without raising, with status [success]; its
    [failed_feeds] is the empty list in every run, since no line adds
    a name to it. When every feed processed fails (its fetch raises or
    it has no entries), the counters returned are those of line 82
    untouched: there is no [inserted] key, so a reader with default 0
    gets 0, [total_inserted] is 0, [failed_feeds] is empty, and the
    database has not been called. *)
Theorem C1_run_returns_summary (FEEDS : list feed_config)
  (clock : nat -> nat -> naive) (order : list nat)
  (start_time end_time : float) (db : DB) (max_feeds : option Z) :
  let run :=
    collect_all_news_of feedparser_parse dateutil_parse DB insert_article
      float fsub FEEDS clock order start_time end_time db max_feeds in
  (exists r db',
      run = (Ret r, db')
      /\ status r = u "success"
      /\ stats r !! "failed_feeds" = Some (VList []))
  /\ ((forall feed, feed ∈ feeds_to_process FEEDS max_feeds ->
         match feedparser_parse (feed_url feed) with
         | Raise _ => True
         | Ret f => feed_bool f = false \/ entries f = []
         end) ->
      exists r,
        run = (Ret r, db)
        /\ stats r = initial_stats
        /\ stats r !! "inserted" = None
        /\ get_int "inserted" 0 (stats r) = 0%Z
        /\ get_int "total_inserted" 0 (stats r) = 0%Z
        /\ stats r !! "failed_feeds" = Some (VList [])).
Proof.
  intros run. subst run.
  destruct (collect_all_news_cases FEEDS clock order start_time end_time
              db max_feeds) as (lists & _ & Hlists & ->).
  split.
  - destruct (bool_decide (unique_articles (concat lists) = [])).
    { eexists _, _. split_and!; done. }
    destruct (save_articles_returns DB insert_article db
                (unique_articles (concat lists)))
      as (save_stats & Hsave).
    rewrite Hsave. eexists _, _. split_and!; [done | done |].
    cbn [stats]. rewrite lookup_union_r; [done |].
    unfold save_articles in Hsave.
    by rewrite (save_loop_other_keys _ _ _ _ _ _ _ "failed_feeds"
                  ltac:(done) ltac:(done) Hsave).
  - intros Hfail.
    assert (Hnil : concat lists = []).
    { apply concat_nil_Forall, Forall_forall. intros l Hl.
      destruct (Hlists l Hl) as (i & feed & Hi & Heq).
      rewrite collect_from_feed_failure in Heq;
        [by injection Heq |].
      apply Hfail. by eapply list_elem_of_lookup_2. }
    rewrite Hnil. cbn. eexists. split_and!; done.
Qed.

(** C4, as amended. A positive [max_feeds] selects exactly the first
    [max_feeds] configured sources (all of them when there are fewer);
    [max_feeds] 0, like no [max_feeds], selects all of them, since line
    95 tests the truth value of the limit. The run is then the run
    over the sources selected. *)
Theorem C4_limit_selects_prefix (FEEDS : list feed_config)
  (clock : nat -> nat -> naive) (order : list nat)
  (start_time end_time : float) (db : DB) (max_feeds : option Z) :
  (forall n, max_feeds = Some n -> (0 <= n)%Z) ->
  let selected :=
    match max_feeds with
    | Some n => if decide (n = 0%Z) then FEEDS
                else take (Z.to_nat n) FEEDS
    | None => FEEDS
    end in
  feeds_to_process FEEDS max_feeds = selected
  /\ collect_all_news_of feedparser_parse dateutil_parse DB
       insert_article float fsub FEEDS clock order start_time end_time
       db max_feeds
     = collect_all_news_of feedparser_parse dateutil_parse DB
         insert_article float fsub selected clock order start_time
         end_time db None.
Proof.
  intros Hn selected.
  assert (Hsel : feeds_to_process FEEDS max_feeds = selected).
  { subst selected. unfold feeds_to_process.
    destruct max_feeds as [n |]; [| done].
    specialize (Hn n eq_refl).
    destruct (decide (n = 0%Z)) as [-> | Hne]; [done |].
    rewrite (proj2 (Z.eqb_neq n 0)) by done.
    unfold slice_to. by rewrite (proj2 (Z.ltb_ge n 0)). }
  split; [done |].
  unfold collect_all_news_of. by rewrite Hsel.
Qed.

(** A negative limit is a slice counted from the end. *)
Lemma negative_limit_drops_last (FEEDS : list feed_config) (n : Z) :
  (n < 0)%Z ->
  feeds_to_process FEEDS (Some n)
    = take (length FEEDS - Z.to_nat (- n)) FEEDS.
Proof.
  intros Hn. unfold feeds_to_process, slice_to.
  rewrite (proj2 (Z.eqb_neq n 0)) by lia.
  rewrite (proj2 (Z.ltb_lt n 0)) by done. f_equal. lia.
Qed.

End properties.

(** The seven configured feeds, all unreachable: the run returns, and
    its [failed_feeds] is empty, not the seven names. *)
Lemma C1_counterexample :
  let run :=
    collect_all_news unreachable iso_only (list pystr) link_store Z Z.sub
      (fun _ => frozen_clock) (seq 0 7) 0%Z 5%Z [] None in
  exists r,
    run.1 = Ret r
    /\ stats r !! "failed_feeds" = Some (VList [])
    /\ length (omap feed_source (feeds_to_process FEEDS None)) = 7
    /\ stats r !! "failed_feeds"
       <> Some (VList (omap feed_source (feeds_to_process FEEDS None))).
Proof.
  eexists. split; [by vm_compute |]. split_and!; by vm_compute.
Qed.

Lemma C1_run_returns_summary_witness :
  exists r,
    collect_all_news unreachable iso_only (list pystr) link_store Z Z.sub
      (fun _ => frozen_clock) (seq 0 7) 0%Z 5%Z [] None = (Ret r, [])
    /\ stats r = initial_stats.
Proof.
  destruct (C1_run_returns_summary unreachable iso_only (list pystr)
              link_store Z Z.sub FEEDS (fun _ => frozen_clock) (seq 0 7)
              0%Z 5%Z [] None) as [_ Hfail].
  destruct Hfail as (r & Hrun & Hstats & _).
  - intros feed _. exact I.
  - exists r. split; [exact Hrun | exact Hstats].
Defined.

(** With the limit 0 all seven feeds are selected, not none. *)
Lemma C4_counterexample :
  feeds_to_process FEEDS (Some 0%Z) = FEEDS
  /\ length (feeds_to_process FEEDS (Some 0%Z)) = 7
  /\ feeds_to_process FEEDS (Some 0%Z) <> take 0 FEEDS.
Proof. split_and!; by vm_compute. Qed.

Lemma C4_limit_selects_prefix_witness :
  feeds_to_process FEEDS (Some 2%Z) = take 2 FEEDS.
Proof.
  destruct (C4_limit_selects_prefix unreachable iso_only (list pystr)
              link_store Z Z.sub FEEDS (fun _ => frozen_clock) (seq 0 7)
              0%Z 5%Z [] (Some 2%Z)) as [Hsel _].
  - intros n [= <-]. lia.
  - exact Hsel.
Defined.

End run_spec.

(** * Further properties *)

(** ** Strings *)
Module str_spec.

Lemma lstrip_suffix (s : pystr) :
  exists t, s = t ++ lstrip s /\ Forall (fun c => isspace c = true) t.
Proof.
  induction s as [| c s (t & Hs & Ht)].
  - exists []. by split.
  - cbn [lstrip]. destruct (isspace c) eqn:Hc.
    + exists (c :: t). split; [by rewrite Hs at 1 | by constructor].
    + exists []. by split.
Qed.

Lemma lstrip_head (s : pystr) (c : N) (r : pystr) :
  lstrip s = c :: r -> isspace c = false.
Proof.
  induction s as [| c0 s IH]; [done |].
  cbn [lstrip]. destruct (isspace c0) eqn:Hc; [done |].
  by intros [= <- _].
Qed.

Lemma lstrip_fixed (s : pystr) :
  (forall c r, s = c :: r -> isspace c = false) -> lstrip s = s.
Proof.
  destruct s as [| c r]; [done |]. intros H.
  cbn [lstrip]. by rewrite (H c r eq_refl).
Qed.

Lemma lstrip_idemp (s : pystr) : lstrip (lstrip s) = lstrip s.
Proof. apply lstrip_fixed. intros c r. apply lstrip_head. Qed.

Lemma rstrip_prefix (s : pystr) :
  exists t, s = rstrip s ++ t /\ Forall (fun c => isspace c = true) t.
Proof.
  unfold rstrip. destruct (lstrip_suffix (rev s)) as (t & Hs & Ht).
  exists (rev t). split.
  - rewrite <- rev_app_distr, <- Hs. by rewrite rev_involutive.
  - apply Forall_forall. intros c Hc. rewrite Forall_forall in Ht.
    apply Ht. apply list_elem_of_In. apply list_elem_of_In in Hc.
    by apply in_rev.
Qed.

Lemma rstrip_idemp (s : pystr) : rstrip (rstrip s) = rstrip s.
Proof. unfold rstrip. by rewrite rev_involutive, lstrip_idemp. Qed.

(** What [strip] returns starts with no white space. *)
Lemma strip_head (s : pystr) (c : N) (r : pystr) :
  strip s = c :: r -> isspace c = false.
Proof.
  unfold strip. intros Hs.
  destruct (rstrip_prefix (lstrip s)) as (t & Hl & _).
  rewrite Hs in Hl. by apply lstrip_head in Hl.
Qed.

(** [s.strip().strip() == s.strip()] *)
Lemma strip_idemp (s : pystr) : strip (strip s) = strip s.
Proof.
  unfold strip at 1.
  rewrite (lstrip_fixed (strip s)) by apply strip_head.
  unfold strip. apply rstrip_idemp.
Qed.

End str_spec.

(** ** Collecting one feed, further *)
Module feed_more.
Import datetime main datetime_spec PyFacts fixtures feed_spec str_spec.

Section properties.

Variable dateutil_parse : pystr -> outcome datetime.
Variable now : nat -> naive.

Lemma process_entries_well_formed (src : pystr) (t : nat) (es : list entry)
  (a : article) :
  a ∈ process_entries dateutil_parse now src t es ->
  title a <> [] /\ strip (title a) = title a
  /\ link a <> [] /\ strip (link a) = link a
  /\ source a = src /\ keywords a = u "[]".
Proof.
  revert t. induction es as [| e es IH]; intros t Ha.
  - by apply elem_of_nil in Ha.
  - cbn [process_entries] in Ha.
    destruct (decide (strip (default (u "No Title") (entry_title e)) = []))
      as [Ht | Ht].
    { rewrite process_entry_skip in Ha by auto. by eapply IH. }
    destruct (decide (strip (default [] (entry_link e)) = [])) as [Hl | Hl].
    { rewrite process_entry_skip in Ha by auto. by eapply IH. }
    destruct (process_entry_emit dateutil_parse now src t e Ht Hl)
      as (p & t' & Heq & _).
    rewrite Heq in Ha. apply elem_of_cons in Ha as [-> | Ha]; [| by eapply IH].
    cbn [title link source keywords].
    split_and!; try done; apply strip_idemp.
Qed.

(** The fields of the articles that do not hold a date, for the entries
    [es]: those of the entries kept, in the order of the entries. *)
Lemma process_entries_fields (src : pystr) (t : nat) (es : list entry) :
  (fun a => (title a, link a, source a, summary a, keywords a))
    <$> process_entries dateutil_parse now src t es
  = omap (fun e =>
            let title := strip (default (u "No Title") (entry_title e)) in
            let link := strip (default [] (entry_link e)) in
            if negb (truthy title) || negb (truthy link) then None
            else Some (title, link, src, default [] (entry_summary e),
                       u "[]"))
         es.
Proof.
  revert t. induction es as [| e es IH]; intros t; [done |].
  cbn [process_entries omap list_omap]. unfold process_entry.
  destruct (negb _ || negb _); [apply IH |].
  destruct (dateutil_parse _) as [d | ex]; cbn; by rewrite IH.
Qed.

(** Every article that [collect_from_feed] returns has a title and a
    link that are not empty and have no white space around them, the
    source of the feed (["Unknown"] when the configuration has none), the
    keywords ['[]'] and a [published] that is a valid ISO-8601 timestamp,
    whatever the feed holds and whatever the date parser answers. *)
Theorem articles_are_well_formed
  (feedparser_parse : option pystr -> outcome feed) (cfg : feed_config) :
  exists articles,
    collect_from_feed feedparser_parse dateutil_parse now cfg = Ret articles
    /\ forall a, a ∈ articles ->
         title a <> [] /\ strip (title a) = title a
         /\ link a <> [] /\ strip (link a) = link a
         /\ source a = default (u "Unknown") (feed_source cfg)
         /\ keywords a = u "[]"
         /\ is_iso8601 (published a) = true.
Proof.
  rewrite collect_from_feed_cases. eexists. split; [done |].
  intros a Ha.
  destruct (feedparser_parse (feed_url cfg)) as [f | ex];
    [| by apply elem_of_nil in Ha].
  destruct (negb (feed_bool f) || bool_decide (entries f = []));
    [by apply elem_of_nil in Ha |].
  pose proof (process_entries_well_formed _ _ _ _ Ha) as (?&?&?&?&?&?).
  pose proof (process_entries_published_valid _ _ _ _ _ _ Ha).
  done.
Qed.

(** The clock and the date parser decide [published] and nothing else:
    titles, links, sources, summaries and keywords of the articles are
    those of the entries kept among the first 15 of the document, in the
    order of the document. *)
Theorem kept_entries_do_not_depend_on_dates
  (feedparser_parse : option pystr -> outcome feed) (cfg : feed_config) :
  exists articles,
    collect_from_feed feedparser_parse dateutil_parse now cfg = Ret articles
    /\ (fun a => (title a, link a, source a, summary a, keywords a))
         <$> articles
       = match feedparser_parse (feed_url cfg) with
         | Raise _ => []
         | Ret f =>
             if feed_bool f then
               omap (fun e =>
                  let title :=
                    strip (default (u "No Title") (entry_title e)) in
                  let link := strip (default [] (entry_link e)) in
                  if negb (truthy title) || negb (truthy link) then None
                  else Some (title, link,
                             default (u "Unknown") (feed_source cfg),
                             default [] (entry_summary e), u "[]"))
                (take 15 (entries f))
             else []
         end.
Proof.
  rewrite collect_from_feed_cases. eexists. split; [done |].
  destruct (feedparser_parse (feed_url cfg)) as [f | ex]; [| done].
  destruct (feed_bool f); [| done]. cbn [negb orb].
  destruct (entries f) as [| e es] eqn:Hes; [done |].
  rewrite bool_decide_eq_false_2 by done.
  apply process_entries_fields.
Qed.

End properties.

End feed_more.

(** ** Deduplication, further *)
Module dedupe_more.
Import main dedupe_spec.

Lemma dict_of_snoc (l : list article) (a : article) :
  dict_of (l ++ [a]) = dict_set (link a) a (dict_of l).
Proof. unfold dict_of. by rewrite foldl_snoc. Qed.

Lemma dict_set_fresh (k : pystr) (v : article) (d : list (pystr * article)) :
  k ∉ d.*1 -> dict_set k v d = d ++ [(k, v)].
Proof.
  induction d as [| [k' v'] d IH]; intros Hk; [done |].
  cbn [dict_set]. rewrite fmap_cons in Hk. cbn in Hk.
  apply not_elem_of_cons in Hk as [Hne Hk].
  rewrite decide_False by done. by rewrite IH.
Qed.

Lemma links_of_unique (l : list article) :
  link <$> unique_articles l = reverse (remove_dups (reverse (link <$> l))).
Proof.
  rewrite unique_articles_link.
  induction l as [| a l IH] using rev_ind; [done |].
  rewrite dict_of_snoc, dict_set_keys, IH.
  rewrite fmap_app, reverse_app. cbn [fmap list_fmap reverse app].
  change (reverse [link a]) with [link a]. cbn [app remove_dups].
  destruct (decide_rel elem_of (link a) (reverse (link <$> l)))
    as [Hin | Hnin].
  - rewrite decide_True; [done |].
    by rewrite elem_of_reverse, elem_of_remove_dups.
  - rewrite decide_False; [by rewrite reverse_cons |].
    by rewrite elem_of_reverse, elem_of_remove_dups.
Qed.

(** The links of the deduplicated list, in the order in which each link
    first occurs: Python's dictionary keeps the place of a key that is
    set again. Their number is the number of distinct links. *)
Theorem unique_articles_in_first_occurrence_order (l : list article) :
  link <$> unique_articles l
    = reverse (remove_dups (reverse (link <$> l)))
  /\ length (unique_articles l) = length (remove_dups (link <$> l)).
Proof.
  split; [apply links_of_unique |].
  rewrite <- (length_fmap link), links_of_unique, length_reverse.
  apply Permutation_length, NoDup_Permutation; try apply NoDup_remove_dups.
  intros k. by rewrite !elem_of_remove_dups, elem_of_reverse.
Qed.

Lemma dict_of_NoDup (l : list article) :
  NoDup (link <$> l) -> dict_of l = (fun a => (link a, a)) <$> l.
Proof.
  induction l as [| a l IH] using rev_ind; intros Hnd; [done |].
  rewrite fmap_app in Hnd. apply NoDup_app in Hnd as (Hl & Hfresh & _).
  rewrite dict_of_snoc, IH by done. rewrite fmap_app. cbn.
  apply dict_set_fresh. rewrite <- list_fmap_compose.
  intros Hin. apply (Hfresh (link a)); [done | cbn; left].
Qed.

(** A list in which no link occurs twice is left as it is, and
    deduplicating a second time changes nothing. *)
Theorem unique_articles_idempotent (l : list article) :
  (NoDup (link <$> l) -> unique_articles l = l)
  /\ unique_articles (unique_articles l) = unique_articles l.
Proof.
  assert (Hid : forall l', NoDup (link <$> l') -> unique_articles l' = l').
  { intros l' Hnd. unfold unique_articles. rewrite dict_of_NoDup by done.
    rewrite <- list_fmap_compose. apply list_fmap_id. }
  split; [apply Hid |]. apply Hid.
  rewrite unique_articles_link. by destruct (dict_of_spec l).
Qed.

(** The order in which the feeds finish decides which of several
    articles with one link is kept, and the order of the result, but not
    the links kept nor their number. *)
Theorem unique_links_do_not_depend_on_order (l l' : list article) :
  l ≡ₚ l' ->
  link <$> unique_articles l ≡ₚ link <$> unique_articles l'
  /\ length (unique_articles l) = length (unique_articles l').
Proof.
  intros Hperm.
  assert (Hlinks : link <$> unique_articles l
                   ≡ₚ link <$> unique_articles l').
  { rewrite !links_of_unique.
    rewrite (reverse_Permutation (remove_dups (reverse (link <$> l)))).
    rewrite (reverse_Permutation (remove_dups (reverse (link <$> l')))).
    apply NoDup_Permutation; try apply NoDup_remove_dups.
    intros k. rewrite !elem_of_remove_dups, !elem_of_reverse.
    by rewrite Hperm. }
  split; [done |].
  rewrite <- !(length_fmap link). by apply Permutation_length.
Qed.

Lemma unique_articles_idempotent_witness :
  unique_articles (take 2 fixtures.some_articles)
    = take 2 fixtures.some_articles.
Proof.
  apply (proj1 (unique_articles_idempotent (take 2 fixtures.some_articles))).
  apply (bool_decide_eq_true_1 _). vm_compute. reflexivity.
Defined.

Lemma unique_links_do_not_depend_on_order_witness :
  length (unique_articles (reverse fixtures.some_articles))
    = length (unique_articles fixtures.some_articles).
Proof.
  apply (unique_links_do_not_depend_on_order
           (reverse fixtures.some_articles) fixtures.some_articles).
  apply reverse_Permutation.
Defined.

End dedupe_more.

(** ** Saving the articles, further *)
Module save_more.
Import main fixtures save_spec.

Section properties.

Variable DB : Type.
Variable insert_article : DB -> article -> outcome bool * DB.

Lemma insert_results_app (db : DB) (xs ys : list article) :
  insert_results DB insert_article db (xs ++ ys)
  = insert_results DB insert_article db xs
    ++ insert_results DB insert_article
         (db_after DB insert_article db xs) ys.
Proof.
  revert db. induction xs as [| a xs IH]; intros db; [done |].
  cbn [app insert_results db_after foldl].
  destruct (insert_article db a) as [r db']. cbn [snd app].
  f_equal. apply IH.
Qed.

Lemma db_after_app (db : DB) (xs ys : list article) :
  db_after DB insert_article db (xs ++ ys)
  = db_after DB insert_article (db_after DB insert_article db xs) ys.
Proof. unfold db_after. apply foldl_app. Qed.

(** The counters of a list from the results of its calls. *)
Lemma save_articles_counts (db : DB) (articles : list article) :
  exists stats,
    save_articles DB insert_article db articles
      = (Ret stats, db_after DB insert_article db articles)
    /\ stats !! "inserted"
       = Some (VInt (Z.of_nat (length
           (filter (fun r => is_inserted r = true)
                   (insert_results DB insert_article db articles)))))
    /\ stats !! "skipped"
       = Some (VInt (Z.of_nat (length
           (filter (fun r => is_inserted r = false)
                   (insert_results DB insert_article db articles)))))
    /\ stats !! "updated" = Some (VInt 0).
Proof.
  unfold save_articles.
  edestruct (save_loop_spec DB insert_article articles)
    as (stats & Heq & Hi & Hs & Hu);
    [ | | exists stats; split; [exact Heq |] ]; [reflexivity .. |].
  cbn beta zeta in Hi, Hs. rewrite !Z.add_0_l in Hi, Hs. done.
Qed.

(** Saving one list after another counts as saving the two in one call:
    the database ends in the same state and the counters add up. *)
Theorem save_articles_in_two_batches (db : DB) (xs ys : list article) :
  let db1 := db_after DB insert_article db xs in
  exists s1 s2 s12 db2,
    save_articles DB insert_article db xs = (Ret s1, db1)
    /\ save_articles DB insert_article db1 ys = (Ret s2, db2)
    /\ save_articles DB insert_article db (xs ++ ys) = (Ret s12, db2)
    /\ (get_int "inserted" 0 s12
        = get_int "inserted" 0 s1 + get_int "inserted" 0 s2)%Z
    /\ (get_int "skipped" 0 s12
        = get_int "skipped" 0 s1 + get_int "skipped" 0 s2)%Z.
Proof.
  intros db1.
  destruct (save_articles_counts db xs) as (s1 & H1 & Hi1 & Hs1 & _).
  destruct (save_articles_counts db1 ys) as (s2 & H2 & Hi2 & Hs2 & _).
  destruct (save_articles_counts db (xs ++ ys)) as (s12 & H12 & Hi & Hs & _).
  exists s1, s2, s12, (db_after DB insert_article db1 ys).
  rewrite db_after_app in H12. fold db1 in H12.
  split_and!; [done .. | |]; unfold get_int.
  - rewrite Hi, Hi1, Hi2, insert_results_app, filter_app, length_app.
    subst db1. lia.
  - rewrite Hs, Hs1, Hs2, insert_results_app, filter_app, length_app.
    subst db1. lia.
Qed.

End properties.

End save_more.

(** ** The whole run, further *)
Module run_more.
Import datetime main fixtures feed_spec save_spec run_spec save_more
       dedupe_spec dedupe_more.

Lemma mapM_length {A} (futures : list (outcome A)) (results : list A) :
  mapM (fun future => future) futures = Ret results ->
  length results = length futures.
Proof.
  revert results. induction futures as [| f fs IH]; intros results.
  - by intros [= <-].
  - cbn [mapM]. destruct f as [x | e]; [| done].
    cbn. destruct (mapM _ fs) as [k | e]; [| done].
    intros [= <-]. cbn. f_equal. by apply IH.
Qed.

(** Futures that all finish once: no more results than futures. *)
Lemma length_as_completed {A} (order : list nat) (futures : list A) :
  NoDup order -> length (as_completed order futures) <= length futures.
Proof.
  intros Hnd. unfold as_completed.
  assert (Hlen : length (omap (fun i => futures !! i) order)
                 = length (filter (fun i => i < length futures) order)).
  { clear Hnd. induction order as [| i order IH]; [done |].
    cbn [omap list_omap]. rewrite filter_cons.
    destruct (futures !! i) as [x |] eqn:Hi.
    - apply lookup_lt_Some in Hi. rewrite decide_True by done.
      cbn. by rewrite IH.
    - apply lookup_ge_None in Hi. rewrite decide_False by lia. done. }
  rewrite Hlen.
  trans (length (seq 0 (length futures))); [| by rewrite length_seq].
  apply submseteq_length, NoDup_submseteq; [by apply NoDup_filter |].
  intros i [Hi _]%list_elem_of_filter. apply elem_of_seq. lia.
Qed.

Lemma length_concat_le {A} (n : nat) (lists : list (list A)) :
  (forall l, l ∈ lists -> length l <= n) ->
  length (concat lists) <= n * length lists.
Proof.
  induction lists as [| l lists IH]; intros H; [cbn; lia |].
  cbn [concat]. rewrite length_app. cbn [length].
  specialize (H l (list_elem_of_here _ _)) as Hl.
  assert (length (concat lists) <= n * length lists).
  { apply IH. intros l' Hl'. apply H. by right. }
  lia.
Qed.

Lemma length_unique_articles (l : list article) :
  length (unique_articles l) <= length l.
Proof.
  rewrite <- (length_fmap link (unique_articles l)), links_of_unique.
  rewrite length_reverse.
  trans (length (reverse (link <$> l)));
    [| rewrite length_reverse, length_fmap; lia].
  apply submseteq_length, NoDup_submseteq; [apply NoDup_remove_dups |].
  intros k Hk. rewrite elem_of_remove_dups in Hk. exact Hk.
Qed.

Section properties.

Variable feedparser_parse : option pystr -> outcome feed.
Variable dateutil_parse : pystr -> outcome datetime.
Variable DB : Type.
Variable insert_article : DB -> article -> outcome bool * DB.
Variable float : Type.
Variable fsub : float -> float -> float.

Lemma length_collect_from_feed (now : nat -> naive) (cfg : feed_config)
  (l : list article) :
  collect_from_feed feedparser_parse dateutil_parse now cfg = Ret l ->
  length l <= 15.
Proof.
  rewrite collect_from_feed_cases. intros [= <-].
  destruct (feedparser_parse (feed_url cfg)) as [f | ex]; [| cbn; lia].
  destruct (negb (feed_bool f) || bool_decide (entries f = []));
    [cbn; lia |].
  etrans; [apply length_process_entries |]. rewrite length_take. lia.
Qed.

(** The run, with its counters: what was saved is the deduplicated list
    of what the futures returned, and the two counters of the result add
    up to its length. *)
Lemma run_counts (FEEDS : list feed_config)
  (clock : nat -> nat -> naive) (order : list nat)
  (start_time end_time : float) (db : DB) (max_feeds : option Z) :
  exists lists r db',
    mapM (fun future => future)
         (as_completed order
            (imap (fun i feed =>
                     collect_from_feed feedparser_parse dateutil_parse
                                       (clock i) feed)
                  (feeds_to_process FEEDS max_feeds)))
      = Ret lists
    /\ (forall l, l ∈ lists -> length l <= 15)
    /\ collect_all_news_of feedparser_parse dateutil_parse DB
         insert_article float fsub FEEDS clock order start_time end_time
         db max_feeds = (Ret r, db')
    /\ (get_int "inserted" 0 (stats r) + get_int "skipped" 0 (stats r)
        = Z.of_nat (length (unique_articles (concat lists))))%Z
    /\ (forall key, key <> "inserted" -> key <> "skipped" ->
                    key <> "updated" ->
                    stats r !! key = initial_stats !! key).
Proof.
  destruct (collect_all_news_cases feedparser_parse dateutil_parse DB
              insert_article float fsub FEEDS clock order start_time
              end_time db max_feeds) as (lists & Hm & Hlists & ->).
  exists lists.
  assert (H15 : forall l, l ∈ lists -> length l <= 15).
  { intros l Hl. destruct (Hlists l Hl) as (i & feed & _ & Heq).
    by eapply length_collect_from_feed. }
  destruct (bool_decide (unique_articles (concat lists) = [])) eqn:Hnil.
  - apply bool_decide_eq_true_1 in Hnil. rewrite Hnil.
    eexists _, _. split_and!; done.
  - destruct (save_articles_counts DB insert_article db
                (unique_articles (concat lists)))
      as (save_stats & Hsave & Hi & Hs & Hu).
    rewrite Hsave. eexists _, _. split_and!; [done .. | |].
    + cbn [stats]. unfold get_int.
      rewrite (lookup_union_Some_l _ _ _ _ Hi),
              (lookup_union_Some_l _ _ _ _ Hs).
      pose proof (count_split
        (insert_results DB insert_article db
           (unique_articles (concat lists)))) as Hsplit.
      rewrite length_insert_results in Hsplit. lia.
    + intros key Hki Hks Hku. cbn [stats].
      apply lookup_union_r. unfold save_articles in Hsave.
      rewrite (save_loop_other_keys _ _ _ _ _ _ _ key Hki Hks Hsave).
      rewrite !lookup_insert_ne by done. by rewrite lookup_singleton_ne.
Qed.

(** The counters [total_processed], [total_inserted], [total_updated]
    and [total_skipped] and the list [successful_feeds] of line 82 are in
    the result of every run as they were set, 0 and empty, also when
    articles were inserted; so is every key other than the three of
    [save_articles]. *)
Theorem run_totals_are_never_updated (FEEDS : list feed_config)
  (clock : nat -> nat -> naive) (order : list nat)
  (start_time end_time : float) (db : DB) (max_feeds : option Z) :
  exists r db',
    collect_all_news_of feedparser_parse dateutil_parse DB insert_article
      float fsub FEEDS clock order start_time end_time db max_feeds
      = (Ret r, db')
    /\ stats r !! "total_processed" = Some (VInt 0)
    /\ stats r !! "total_inserted" = Some (VInt 0)
    /\ stats r !! "total_updated" = Some (VInt 0)
    /\ stats r !! "total_skipped" = Some (VInt 0)
    /\ stats r !! "successful_feeds" = Some (VList [])
    /\ forall key, key <> "inserted" -> key <> "skipped" ->
                   key <> "updated" ->
                   stats r !! key = initial_stats !! key.
Proof.
  destruct (run_counts FEEDS clock order start_time end_time db max_feeds)
    as (lists & r & db' & _ & _ & Hrun & _ & Hkeys).
  exists r, db'. split; [done |].
  split_and!; try (rewrite Hkeys by done; reflexivity). exact Hkeys.
Qed.

(** When every future finishes once, a run saves at most 15 articles for
    each feed processed: [inserted + skipped] is at most 15 times the
    number of feeds. *)
Theorem run_saves_at_most_15_per_feed (FEEDS : list feed_config)
  (clock : nat -> nat -> naive) (order : list nat)
  (start_time end_time : float) (db : DB) (max_feeds : option Z) :
  NoDup order ->
  exists r db',
    collect_all_news_of feedparser_parse dateutil_parse DB insert_article
      float fsub FEEDS clock order start_time end_time db max_feeds
      = (Ret r, db')
    /\ (get_int "inserted" 0 (stats r) + get_int "skipped" 0 (stats r)
        <= 15 * Z.of_nat (length (feeds_to_process FEEDS max_feeds)))%Z.
Proof.
  intros Hnd.
  destruct (run_counts FEEDS clock order start_time end_time db max_feeds)
    as (lists & r & db' & Hm & H15 & Hrun & Hsum & _).
  exists r, db'. split; [done |]. rewrite Hsum.
  pose proof (length_unique_articles (concat lists)) as Hu.
  pose proof (length_concat_le 15 lists H15) as Hc.
  apply mapM_length in Hm.
  pose proof (length_as_completed order
    (imap (fun i feed =>
             collect_from_feed feedparser_parse dateutil_parse (clock i) feed)
          (feeds_to_process FEEDS max_feeds)) Hnd) as Ha.
  rewrite length_imap in Ha. lia.
Qed.

End properties.

(** For every limit, the sources processed are a prefix of the sources
    configured, in their order; their number is that of the configured
    ones for no limit and for 0, the limit or that number if it is
    smaller for a positive limit, and what is left without the last
    [-n] for a negative limit [n]. *)
Theorem feeds_to_process_is_prefix (FEEDS : list feed_config)
  (max_feeds : option Z) :
  feeds_to_process FEEDS max_feeds `prefix_of` FEEDS
  /\ length (feeds_to_process FEEDS max_feeds)
     = match max_feeds with
       | None => length FEEDS
       | Some n =>
           if (n =? 0)%Z then length FEEDS
           else if (n <? 0)%Z then length FEEDS - Z.to_nat (- n)
           else min (Z.to_nat n) (length FEEDS)
       end.
Proof.
  unfold feeds_to_process, slice_to.
  destruct max_feeds as [n |]; [| done].
  destruct (n =? 0)%Z; [done |].
  destruct (n <? 0)%Z eqn:Hneg.
  - apply Z.ltb_lt in Hneg. split; [apply prefix_take |].
    rewrite length_take. lia.
  - split; [apply prefix_take |]. by rewrite length_take.
Qed.

Lemma run_saves_at_most_15_per_feed_witness :
  exists r db',
    collect_all_news api_fixtures.two_entries iso_only (list pystr) link_store Z
      Z.sub (fun _ => frozen_clock) (seq 0 7) 0%Z 5%Z [] (Some 3%Z)
      = (Ret r, db')
    /\ (get_int "inserted" 0 (stats r) + get_int "skipped" 0 (stats r)
        <= 45)%Z.
Proof.
  destruct (run_saves_at_most_15_per_feed api_fixtures.two_entries iso_only
              (list pystr) link_store Z Z.sub FEEDS (fun _ => frozen_clock)
              (seq 0 7) 0%Z 5%Z [] (Some 3%Z))
    as (r & db' & Hrun & Hle).
  - apply (bool_decide_eq_true_1 _). vm_compute. reflexivity.
  - exists r, db'. split; [exact Hrun |]. exact Hle.
Defined.

(** Three feeds of two entries each, with the same two links: two
    articles are inserted, and the totals stay 0. *)
Example totals_example :
  exists r db',
    collect_all_news api_fixtures.two_entries iso_only (list pystr) link_store Z
      Z.sub (fun _ => frozen_clock) (seq 0 7) 0%Z 5%Z [] (Some 3%Z)
      = (Ret r, db')
    /\ stats r !! "inserted" = Some (VInt 2)
    /\ stats r !! "total_inserted" = Some (VInt 0).
Proof. eexists _, _. by vm_compute. Qed.

End run_more.

(** ** The endpoints *)
Module api_spec.
Import datetime main api fixtures api_fixtures.
Import save_spec run_spec save_more run_more.

Lemma mapM_outcome_cons {A B} (f : A -> outcome B) (x : A) (l : list A) :
  mapM f (x :: l)
  = match f x with
    | Ret y => match mapM f l with
               | Ret k => Ret (y :: k)
               | Raise e => Raise e
               end
    | Raise e => Raise e
    end.
Proof. cbn [mapM]. destruct (f x); [| done]. by destruct (mapM f l). Qed.

(** [[row['source'] for row in results]]: the column of every row, or the
    [KeyError] of the first row without it. *)
Lemma mapM_getitem (name : string) (rows : list (gmap string sqlval)) :
  (forall values,
      mapM (getitem name) rows = Ret values ->
      Forall2 (fun row v => row !! name = Some v) rows values)
  /\ (forall e,
        mapM (getitem name) rows = Raise e ->
        Exists (fun row => row !! name = None) rows).
Proof.
  induction rows as [| row rows [IHr IHe]].
  - split; [intros values [= <-]; constructor | intros e [=]].
  - rewrite mapM_outcome_cons. unfold getitem at 1 3.
    destruct (row !! name) as [v |] eqn:Hv.
    + destruct (mapM (getitem name) rows) as [k | e0].
      * split; [intros values [= <-]; constructor; auto | intros e [=]].
      * split; [intros values [=] | intros e _; right; eauto].
    + split; [intros values [=] | intros e _; by left].
Qed.

Section properties.

Variable feedparser_parse : option pystr -> outcome feed.
Variable dateutil_parse : pystr -> outcome datetime.
Variable DB : Type.
Variable insert_article : DB -> article -> outcome bool * DB.
Variable float : Type.
Variable fsub : float -> float -> float.
Variable execute_query
  : DB -> pystr -> outcome (list (gmap string sqlval)) * DB.

(** [collect_news_now] answers with an error only for the query that
    counts the articles: the collection before it always returns, with a
    number of insertions that is not negative (0 when no article was
    collected). If the query raises, or its first row has no [count], the
    answer is status 500, and the database stays as the collection and
    the query left it: what was saved is not undone. If the query returns
    no row the total is 0, else the [count] of the first row. *)
Theorem collect_news_now_answers (clock : nat -> nat -> naive)
  (order : list nat) (start_time end_time : float) (db : DB)
  (max_feeds : option Z) :
  exists r db1 n,
    collect_all_news feedparser_parse dateutil_parse DB insert_article
      float fsub clock order start_time end_time db max_feeds
      = (Ret r, db1)
    /\ default (VInt 0) (stats r !! "inserted") = VInt n
    /\ (0 <= n)%Z
    /\ collect_news_now feedparser_parse dateutil_parse DB insert_article
         float fsub execute_query clock order start_time end_time db
         max_feeds
       = match execute_query db1
                 (u "SELECT COUNT(*) as count FROM articles") with
         | (Raise e, db2) =>
             (HTTPException 500
                (u "뉴스 수집 중 오류 발생: " ++ str_of_exn e), db2)
         | (Ret [], db2) =>
             (Ok (CollectResponse (u "뉴스 수집 완료") (u "success")
                    (duration r) (VInt n) (SInt 0)), db2)
         | (Ret (row :: _), db2) =>
             match row !! "count" with
             | Some total =>
                 (Ok (CollectResponse (u "뉴스 수집 완료") (u "success")
                        (duration r) (VInt n) total), db2)
             | None =>
                 (HTTPException 500
                    (u "뉴스 수집 중 오류 발생: " ++ u "'count'"), db2)
             end
         end.
Proof.
  destruct (run_counts feedparser_parse dateutil_parse DB insert_article
              float fsub FEEDS clock order start_time end_time db max_feeds)
    as (lists & r & db1 & _ & _ & Hrun & Hsum & _).
  fold (collect_all_news feedparser_parse dateutil_parse DB insert_article
          float fsub) in Hrun.
  assert (Hn : exists n, default (VInt 0) (stats r !! "inserted") = VInt n
                         /\ (0 <= n)%Z).
  { unfold collect_all_news in Hrun.
    destruct (collect_all_news_cases feedparser_parse dateutil_parse DB
                insert_article float fsub FEEDS clock order start_time
                end_time db max_feeds) as (lists' & _ & _ & Hcases).
    rewrite Hcases in Hrun.
    destruct (bool_decide (unique_articles (concat lists') = [])).
    - injection Hrun as <- _. exists 0%Z. split; [reflexivity | lia].
    - destruct (save_articles_counts DB insert_article db
                  (unique_articles (concat lists')))
        as (save_stats & Hsave & Hi & _).
      rewrite Hsave in Hrun. injection Hrun as <- _. cbn [stats].
      rewrite (lookup_union_Some_l _ _ _ _ Hi). cbn [from_option id].
      eexists. split; [reflexivity | lia]. }
  destruct Hn as (n & Hn & Hpos).
  exists r, db1, n. split; [exact Hrun |].
  split; [exact Hn |]. split; [exact Hpos |].
  unfold collect_news_now, collect_news_now_body. rewrite Hrun.
  destruct (execute_query db1 _) as [[rows | e] db2]; [| reflexivity].
  destruct rows as [| row rows].
  - cbn [mbind outcome_bind bind mret outcome_ret]. rewrite Hn.
    reflexivity.
  - unfold getitem. destruct (row !! "count") as [total |];
      cbn [mbind outcome_bind bind mret outcome_ret str_of_exn
           String.append];
      [rewrite Hn |]; reflexivity.
Qed.

(** [get_sources] answers the [source] of every row of the query, in the
    order of the rows, when every row has one; if the query raises, or a
    row has no [source], it answers status 500 with a fixed detail. *)
Theorem get_sources_answers (db : DB) :
  match execute_query db
          (u "SELECT DISTINCT source FROM articles ORDER BY source") with
  | (Ret rows, db') =>
      (exists sources,
          get_sources DB execute_query db = (Ok sources, db')
          /\ Forall2 (fun row v => row !! "source" = Some v) rows sources)
      \/ (get_sources DB execute_query db
            = (HTTPException 500 (u "Failed to fetch sources."), db')
          /\ Exists (fun row => row !! "source" = None) rows)
  | (Raise e, db') =>
      get_sources DB execute_query db
        = (HTTPException 500 (u "Failed to fetch sources."), db')
  end.
Proof.
  unfold get_sources.
  destruct (execute_query db _) as [[rows | e] db']; [| done].
  destruct (mapM_getitem "source" rows) as [Hr He].
  change (results ← Ret rows; mapM (getitem "source") results)
    with (mapM (getitem "source") rows).
  destruct (mapM (getitem "source") rows) as [sources | e]; eauto.
Qed.

End properties.

(** The collection saves two articles, then the count fails: the answer
    is an error and the two links are in the database. *)
Example saved_then_error :
  exists detail,
    collect_news_now two_entries iso_only (list pystr) link_store Z Z.sub
      query_fails (fun _ => frozen_clock) (seq 0 7) 0%Z 5%Z [] (Some 3%Z)
    = (HTTPException 500 detail,
       [u "https://example.org/cloud"; u "https://example.org/chips"]).
Proof. eexists. by vm_compute. Qed.

End api_spec.

(** ** The run and the order in which the feeds finish *)
Module run_order.
Import datetime main fixtures api_fixtures.
Import feed_spec run_spec dedupe_more run_more.

Lemma omap_lookup_seq {A} (pre l : list A) :
  omap (fun i => (pre ++ l) !! i) (seq (length pre) (length l)) = l.
Proof.
  revert pre. induction l as [| x l IH]; intros pre; [done |].
  cbn [length seq omap list_omap].
  rewrite list_lookup_middle by done. f_equal.
  specialize (IH (pre ++ [x])).
  rewrite length_app, Nat.add_1_r, <- app_assoc in IH. exact IH.
Qed.

(** Futures that finish once each: their results, in some order. *)
Lemma as_completed_Permutation {A} (order : list nat) (futures : list A) :
  order ≡ₚ seq 0 (length futures) -> as_completed order futures ≡ₚ futures.
Proof.
  intros Hperm. unfold as_completed. rewrite Hperm.
  pose proof (omap_lookup_seq [] futures) as Hseq. cbn in Hseq.
  by rewrite Hseq.
Qed.

Lemma as_completed_fmap {A B} (f : A -> B) (order : list nat) (l : list A) :
  as_completed order (f <$> l) = f <$> as_completed order l.
Proof.
  unfold as_completed. induction order as [| i order IH]; [done |].
  cbn [omap list_omap]. rewrite list_lookup_fmap, IH.
  by destruct (l !! i).
Qed.

Lemma mapM_Ret {A} (l : list A) :
  mapM (fun future => future) (Ret <$> l) = Ret l.
Proof.
  induction l as [| x l IH]; [done |].
  rewrite fmap_cons. cbn [mapM]. by rewrite IH.
Qed.

Lemma concat_Permutation {A} (l k : list (list A)) :
  l ≡ₚ k -> concat l ≡ₚ concat k.
Proof.
  induction 1 as [| x l k _ IH | x y l | l k m _ IH1 _ IH2]; cbn [concat].
  - done.
  - by rewrite IH.
  - by rewrite !app_assoc, (Permutation_app_comm y x).
  - by etrans.
Qed.

Section properties.

Variable feedparser_parse : option pystr -> outcome feed.
Variable dateutil_parse : pystr -> outcome datetime.
Variable DB : Type.
Variable insert_article : DB -> article -> outcome bool * DB.
Variable float : Type.
Variable fsub : float -> float -> float.

(** When every future finishes once, whatever the order in which they
    finish, the run calls the database once for each distinct link among
    the articles of the feeds processed: [inserted + skipped] is the
    number of distinct links. *)
Theorem run_counts_the_distinct_links (FEEDS : list feed_config)
  (clock : nat -> nat -> naive) (order : list nat)
  (start_time end_time : float) (db : DB) (max_feeds : option Z) :
  order ≡ₚ seq 0 (length (feeds_to_process FEEDS max_feeds)) ->
  let fetched :=
    imap (fun i feed =>
            match collect_from_feed feedparser_parse dateutil_parse
                                    (clock i) feed with
            | Ret articles => articles
            | Raise _ => []
            end)
         (feeds_to_process FEEDS max_feeds) in
  exists r db',
    collect_all_news_of feedparser_parse dateutil_parse DB insert_article
      float fsub FEEDS clock order start_time end_time db max_feeds
      = (Ret r, db')
    /\ (get_int "inserted" 0 (stats r) + get_int "skipped" 0 (stats r)
        = Z.of_nat (length (remove_dups (link <$> concat fetched))))%Z.
Proof.
  intros Horder fetched.
  destruct (run_counts feedparser_parse dateutil_parse DB insert_article
              float fsub FEEDS clock order start_time end_time db max_feeds)
    as (lists & r & db' & Hm & _ & Hrun & Hsum & _).
  exists r, db'. split; [done |]. rewrite Hsum. f_equal.
  assert (Hfut :
    imap (fun i feed =>
            collect_from_feed feedparser_parse dateutil_parse (clock i) feed)
         (feeds_to_process FEEDS max_feeds)
    = Ret <$> fetched).
  { subst fetched. apply list_eq. intros i.
    rewrite list_lookup_fmap, !list_lookup_imap.
    destruct (feeds_to_process FEEDS max_feeds !! i) as [feed |]; [| done].
    cbn. f_equal. by rewrite collect_from_feed_cases. }
  rewrite Hfut, as_completed_fmap, mapM_Ret in Hm.
  injection Hm as <-.
  assert (Hperm : as_completed order fetched ≡ₚ fetched).
  { apply as_completed_Permutation. subst fetched.
    by rewrite length_imap. }
  rewrite <- !(length_fmap link (unique_articles _)), links_of_unique.
  rewrite length_reverse.
  apply Permutation_length, NoDup_Permutation; try apply NoDup_remove_dups.
  intros k. rewrite !elem_of_remove_dups, elem_of_reverse.
  by rewrite (concat_Permutation _ _ Hperm).
Qed.

End properties.

Lemma run_counts_the_distinct_links_witness :
  exists r db',
    collect_all_news two_entries iso_only (list pystr) link_store Z Z.sub
      (fun _ => frozen_clock) [2; 0; 1] 0%Z 5%Z [] (Some 3%Z)
      = (Ret r, db')
    /\ (get_int "inserted" 0 (stats r) + get_int "skipped" 0 (stats r)
        = 2)%Z.
Proof.
  destruct (run_counts_the_distinct_links two_entries iso_only
              (list pystr) link_store Z Z.sub FEEDS (fun _ => frozen_clock)
              [2; 0; 1] 0%Z 5%Z [] (Some 3%Z))
    as (r & db' & Hrun & Hsum).
  - vm_compute. apply (Permutation_cons_append [0; 1] 2).
  - exists r, db'. split; [exact Hrun |]. rewrite Hsum. vm_compute.
    reflexivity.
Defined.

End run_order.
